(** * Sales agent voice service: call flow, caller identity and prompt assembly

    A shallow embedding of the Python sources

    - [database/models.py], [database/crud.py]  (persistence gateway),
    - [ai/prompts.py]                           (context assembler),
    - [services/greeting_service.py], [telephony/twilio_service.py],
      [telephony/router.py]                     (call-flow controller),
    - [ai/router.py]                            (session lifecycle manager),

    followed by the properties of the specification that concern them. *)

From Stdlib Require Import List Ascii NArith Arith Bool Lia.
From Stdlib Require Import Sorting.Sorted Sorting.Permutation.
From Stdlib Require String DecimalString.
Import ListNotations String.StringSyntax.
Delimit Scope string_scope with string.

Set Implicit Arguments.

(* ------------------------------------------------------------------ *)
(** * Python values *)
(* ------------------------------------------------------------------ *)

Module Py.

(** A Python [str] is a sequence of Unicode code points; [len] and
    slicing count code points. *)
Definition char := N.
Definition str := list char.

(** A literal of the source, written as a Rocq string of ASCII
    characters. *)
Definition lit (s : String.string) : str :=
  map N_of_ascii (String.list_ascii_of_string s).

(** ["\n"], and the em dash of [BASE_INSTRUCTIONS] (U+2014). *)
Definition LF : str := [10%N].
Definition EM_DASH : str := [8212%N].

Definition char_eqb (a b : char) : bool := N.eqb a b.

Fixpoint str_eqb (a b : str) : bool :=
  match a, b with
  | [], [] => true
  | x :: a', y :: b' => char_eqb x y && str_eqb a' b'
  | _, _ => false
  end.

(** [a == b] on values of type [Optional[str]]. *)
Definition opt_str_eqb (a b : option str) : bool :=
  match a, b with
  | None, None => true
  | Some x, Some y => str_eqb x y
  | _, _ => false
  end.

(** Truth value of a [str]: the empty string is false. *)
Definition truthy (s : str) : bool :=
  match s with [] => false | _ :: _ => true end.

(** Truth value of an [Optional[str]]: [None] and [""] are false. *)
Definition opt_truthy (o : option str) : bool :=
  match o with None => false | Some s => truthy s end.

(** Truth value of a list. *)
Definition list_truthy {A} (l : list A) : bool :=
  match l with [] => false | _ :: _ => true end.

(** [s[:n]] *)
Definition slice_to (n : nat) (s : str) : str := firstn n s.

(** [str(n)] for a non-negative integer, as an f-string prints it. *)
Definition str_of_nat (n : nat) : str :=
  lit (DecimalString.NilEmpty.string_of_uint (Nat.to_uint n)).

(** [s.replace(c, "")] for a one-character [c]. *)
Definition remove_char (c : char) (s : str) : str :=
  filter (fun x => negb (char_eqb x c)) s.

(** [s.lstrip(c)] for a one-character [c]. *)
Fixpoint lstrip_char (c : char) (s : str) : str :=
  match s with
  | x :: s' => if char_eqb x c then lstrip_char c s' else s
  | [] => []
  end.

(** [s.startswith(p)] *)
Fixpoint startswith (p s : str) : bool :=
  match p, s with
  | [], _ => true
  | x :: p', y :: s' => char_eqb x y && startswith p' s'
  | _ :: _, [] => false
  end.

(** [s.split(sep)] for the two-character separator [c c]: the pieces
    between the non-overlapping occurrences of the separator, found
    from the left.  [cur] holds the piece being read, reversed. *)
Fixpoint split2_from (c : char) (cur : str) (s : str) : list str :=
  match s with
  | [] => [rev cur]
  | x :: t =>
      match t with
      | y :: rest =>
          if char_eqb x c && char_eqb y c
          then rev cur :: split2_from c [] rest
          else split2_from c (x :: cur) t
      | [] => [rev (x :: cur)]
      end
  end.

Definition split2 (c : char) (s : str) : list str := split2_from c [] s.

End Py.

Import Py.
Arguments lit _%_string.

(** Exceptions deriving from [Exception], which is what a clause
    [except Exception] catches. *)
Inductive exn : Type :=
| NumberParseException
| WebSocketDisconnect
| IndexError
| OtherException (name : String.string).

Inductive result (A : Type) : Type :=
| Ok (a : A)
| Raise (e : exn).
Arguments Ok {A} a.
Arguments Raise {A} e.

(* ------------------------------------------------------------------ *)
(** * database/models.py *)
(* ------------------------------------------------------------------ *)

(** Rows of the two tables the call flow touches.  The columns
    [created_at], [updated_at] and [timestamp] are filled by the storage
    engine from its own clock ([server_default], [onupdate]); no function
    of the application reads or assigns them and they are not part of
    the rows below. *)

Record PersonalInfoDB : Type := {
  id : nat;
  phone_number : str;
  call_sid : option str;
  full_name : option str;
  email : option str
}.

Record ConversationDB : Type := {
  conv_id : nat;
  conv_phone_number : str;
  transcript : str;
  system_message : option str
}.

(** The committed content seen through a [Session]. *)
Record Session : Type := {
  personal_info : list PersonalInfoDB;
  conversations : list ConversationDB
}.

Definition set_call_sid (r : PersonalInfoDB) (v : option str) : PersonalInfoDB :=
  {| id := id r; phone_number := phone_number r; call_sid := v;
     full_name := full_name r; email := email r |}.

Definition set_full_name (r : PersonalInfoDB) (v : option str) : PersonalInfoDB :=
  {| id := id r; phone_number := phone_number r; call_sid := call_sid r;
     full_name := v; email := email r |}.

Definition set_email (r : PersonalInfoDB) (v : option str) : PersonalInfoDB :=
  {| id := id r; phone_number := phone_number r; call_sid := call_sid r;
     full_name := full_name r; email := v |}.

(* ------------------------------------------------------------------ *)
(** * database/crud.py *)
(* ------------------------------------------------------------------ *)

(** Each function gives the committed effect of a call that the storage
    engine accepts.  A call that the engine refuses raises instead and
    writes nothing; the handlers meet that case as [storage_failure]. *)
Module crud.

(** The integer primary key given to a new row: one more than the
    largest key in the table. *)
Definition next_id (ids : list nat) : nat := S (list_max ids).

(** [db.query(PersonalInfoDB).filter(PersonalInfoDB.phone_number == p)] *)
Definition filter_by_phone (p : str) (rows : list PersonalInfoDB)
  : list PersonalInfoDB :=
  filter (fun r => str_eqb (phone_number r) p) rows.

(** [... .first()] *)
Definition query_first (db : Session) (p : str) : option PersonalInfoDB :=
  hd_error (filter_by_phone p (personal_info db)).

(** [db.commit()] after an attribute of the loaded [record] was
    assigned: the row with that primary key is rewritten. *)
Definition commit_update (db : Session) (record : PersonalInfoDB) : Session :=
  {| personal_info :=
       map (fun r => if Nat.eqb (id r) (id record) then record else r)
           (personal_info db);
     conversations := conversations db |}.

(** [db.add(new_record); db.commit()] for a [PersonalInfoDB] built
    from a phone number and a call identifier. *)
Definition commit_add_personal_info (db : Session) (p : str) (sid : option str)
  : Session :=
  {| personal_info :=
       personal_info db ++
       [ {| id := next_id (map id (personal_info db));
            phone_number := p; call_sid := sid;
            full_name := None; email := None |} ];
     conversations := conversations db |}.

Definition get_or_create_personal_info
    (db : Session) (phone : str) (sid : option str)
  : option str * Session :=
  match query_first db phone with
  | Some record =>
      if opt_truthy sid && negb (opt_str_eqb (call_sid record) sid)
      then (full_name record, commit_update db (set_call_sid record sid))
      else (full_name record, db)
  | None =>
      (None, commit_add_personal_info db phone sid)
  end.

Definition update_personal_info
    (db : Session) (phone : str) (name : option str) (mail : option str)
  : bool * Session :=
  match query_first db phone with
  | Some record =>
      let updated := false in
      let '(record, updated) :=
        if opt_truthy name && negb (opt_str_eqb (full_name record) name)
        then (set_full_name record name, true)
        else (record, updated) in
      let '(record, updated) :=
        if opt_truthy mail && negb (opt_str_eqb (email record) mail)
        then (set_email record mail, true)
        else (record, updated) in
      if updated then (true, commit_update db record)
      else (false, db)
  | None => (false, db)
  end.

(** [order_by(ConversationDB.id.desc())]: insertion into a list kept
    in descending key order. *)
Fixpoint insert_desc (c : ConversationDB) (l : list ConversationDB)
  : list ConversationDB :=
  match l with
  | [] => [c]
  | d :: l' =>
      if Nat.leb (conv_id d) (conv_id c) then c :: l
      else d :: insert_desc c l'
  end.

Definition order_by_id_desc (l : list ConversationDB) : list ConversationDB :=
  fold_right insert_desc [] l.

Definition get_past_conversations_limit
    (db : Session) (phone : str) (limit : nat)
  : list (str * option str) :=
  let rows :=
    firstn limit
      (order_by_id_desc
         (filter (fun c => str_eqb (conv_phone_number c) phone)
                 (conversations db))) in
  map (fun conv => (transcript conv, system_message conv)) rows.

(** The default [limit=3]. *)
Definition get_past_conversations (db : Session) (phone : str)
  : list (str * option str) :=
  get_past_conversations_limit db phone 3.

Definition save_conversation
    (db : Session) (phone : str) (text : str) (sysmsg : str) : Session :=
  {| personal_info := personal_info db;
     conversations :=
       conversations db ++
       [ {| conv_id := next_id (map conv_id (conversations db));
            conv_phone_number := phone;
            transcript := text;
            system_message := Some sysmsg |} ] |}.

End crud.

(* ------------------------------------------------------------------ *)
(** * ai/prompts.py *)
(* ------------------------------------------------------------------ *)

Module prompts.

Definition BASE_INSTRUCTIONS : str :=
  LF ++
  lit "You are Alex, a friendly and professional sales agent for Super Truck AI," ++ LF ++
  lit "a logistics software designed to help trucking carriers optimize their operations." ++ LF ++
  lit "Your goal is to assist callers by understanding their needs, explaining how Super Truck AI" ++ LF ++
  lit "can benefit their business (load dispatching, invoicing, accounting, IFTA filing, carrier optimization)," ++ LF ++
  lit "and guiding them toward solutions" ++ EM_DASH ++
  lit "never push sales aggressively. Help carriers increase profits" ++ LF ++
  lit "and reduce costs by streamlining operations. Be concise and clear." ++ LF.

Definition RETURNING_CALLER_INSTRUCTIONS : str :=
  LF ++
  lit "Remember you have spoken to this caller before. Refer to the previous conversation context below." ++ LF ++
  lit "Continue the conversation naturally, acknowledging past discussions if relevant." ++ LF.

(** [transcript[:500] + '...' if len(transcript) > 500 else transcript] *)
Definition summary_of (text : str) : str :=
  if Nat.ltb 500 (length text) then slice_to 500 text ++ lit "..."
  else text.

(** [f"Call {n}:\n{summary}\n\n"] *)
Definition digest_entry (n : nat) (summary : str) : str :=
  lit "Call " ++ str_of_nat n ++ lit ":" ++ LF ++ summary ++ LF ++ LF.

(** The body of
    [for i, (transcript, _) in enumerate(reversed(past_conversations))],
    run on the items still to visit, [i] being the index of the first
    of them and [len_past] the value of [len(past_conversations)]. *)
Fixpoint digest_loop (len_past : nat) (i : nat)
    (items : list (str * option str)) (dynamic_context : str) : str :=
  match items with
  | [] => dynamic_context
  | (text, _) :: rest =>
      let summary := summary_of text in
      digest_loop len_past (S i) rest
        (dynamic_context ++ digest_entry (len_past - i) summary)
  end.

Definition dynamic_context_of (past_conversations : list (str * option str))
  : str :=
  let dynamic_context :=
    LF ++ lit "--- Previous Conversation Summary ---" ++ LF in
  let dynamic_context :=
    digest_loop (length past_conversations) 0
                (rev past_conversations) dynamic_context in
  dynamic_context ++ lit "--- End of Summary ---" ++ LF.

Definition generate_openai_instructions
    (db : Session) (phone : option str) : str * bool :=
  let full_instructions := BASE_INSTRUCTIONS in
  let is_returning := false in
  let previous_system_message : option str := None in
  if opt_truthy phone then
    match phone with
    | Some p =>
        let past_conversations := crud.get_past_conversations db p in
        if list_truthy past_conversations then
          let is_returning := true in
          let full_instructions :=
            full_instructions ++ LF ++ RETURNING_CALLER_INSTRUCTIONS in
          (* The system message of the latest conversation is read
             and kept aside; the instructions do not use it. *)
          let previous_system_message :=
            match past_conversations with
            | (_, Some m) :: _ =>
                if truthy m then Some m else previous_system_message
            | _ => previous_system_message
            end in
          let full_instructions :=
            full_instructions ++ dynamic_context_of past_conversations in
          (full_instructions, is_returning)
        else (full_instructions, is_returning)
    | None => (full_instructions, is_returning)
    end
  else (full_instructions, is_returning).

End prompts.

(* ------------------------------------------------------------------ *)
(** * Effects: state passing with exceptions *)
(* ------------------------------------------------------------------ *)

(** A computation over a state [S] either returns a value or raises;
    in both cases it leaves a state behind. *)
Definition M (S A : Type) : Type := S -> result A * S.

Definition ret {S A} (a : A) : M S A := fun s => (Ok a, s).

Definition raise {S A} (e : exn) : M S A := fun s => (Raise e, s).

Definition bind {S A B} (m : M S A) (k : A -> M S B) : M S B :=
  fun s =>
    match m s with
    | (Ok a, s') => k a s'
    | (Raise e, s') => (Raise e, s')
    end.

(** A pure fallible call. *)
Definition lift {S A} (r : result A) : M S A := fun s => (r, s).

Declare Scope py_scope.
Delimit Scope py_scope with py.
Notation "x <- m ;; k" := (bind m (fun x => k))
  (at level 61, m at next level, right associativity) : py_scope.
Notation "m ;;; k" := (bind m (fun _ => k))
  (at level 61, right associativity) : py_scope.

(** [try: body  except <clauses>]: [handler e] is the body of the first
    clause matching [e], or [None] when no clause matches. *)
Definition try_except {S A} (body : M S A) (handler : exn -> option (M S A))
  : M S A :=
  fun s =>
    match body s with
    | (Ok a, s') => (Ok a, s')
    | (Raise e, s') =>
        match handler e with
        | Some h => h s'
        | None => (Raise e, s')
        end
    end.

(** [try: body  finally: fin]: [fin] runs on every exit of [body]; an
    exception of [fin] replaces the outcome of [body]. *)
Definition try_finally {S A} (body : M S A) (fin : M S unit) : M S A :=
  fun s =>
    match body s with
    | (r, s') =>
        match fin s' with
        | (Ok _, s'') => (r, s'')
        | (Raise e, s'') => (Raise e, s'')
        end
    end.

(* ------------------------------------------------------------------ *)
(** * Call-control markup *)
(* ------------------------------------------------------------------ *)

(** The verbs of the carrier's markup that the service emits, as the
    helper library's [VoiceResponse] holds them. *)
Inductive Noun : Type :=
| Stream (url : str).

Inductive Verb : Type :=
| Say (text : str)
| Play (url : str)
| Pause (length : nat)
| Connect (nouns : list Noun)
| Hangup.

Definition VoiceResponse := list Verb.

Module twiml.

(** Character data: [&], [<] and [>] are escaped. *)
Definition escape_char (c : char) : str :=
  if char_eqb c 38%N then lit "&amp;"
  else if char_eqb c 60%N then lit "&lt;"
  else if char_eqb c 62%N then lit "&gt;"
  else [c].

Definition escape_cdata (s : str) : str := flat_map escape_char s.

(** Attribute values: the double quote and the line characters are
    escaped as well. *)
Definition escape_attrib_char (c : char) : str :=
  if char_eqb c 34%N then lit "&quot;"
  else if char_eqb c 13%N then lit "&#13;"
  else if char_eqb c 10%N then lit "&#10;"
  else if char_eqb c 9%N then lit "&#09;"
  else escape_char c.

Definition escape_attrib (s : str) : str := flat_map escape_attrib_char s.

Definition QUOTE : str := [34%N].

(** The end of an element without content: [" />"] as the helper
    library prints it, ["/>"] as the hand-written literals have it. *)
Definition empty_end (spaced : bool) : str :=
  if spaced then lit " />" else lit "/>".

Definition noun_xml (spaced : bool) (n : Noun) : str :=
  match n with
  | Stream url =>
      lit "<Stream url=" ++ QUOTE ++ escape_attrib url ++ QUOTE
        ++ empty_end spaced
  end.

Definition verb_xml (spaced : bool) (v : Verb) : str :=
  match v with
  | Say text => lit "<Say>" ++ escape_cdata text ++ lit "</Say>"
  | Play url => lit "<Play>" ++ escape_cdata url ++ lit "</Play>"
  | Pause n =>
      lit "<Pause length=" ++ QUOTE ++ str_of_nat n ++ QUOTE
        ++ empty_end spaced
  | Connect [] => lit "<Connect" ++ empty_end spaced
  | Connect nouns =>
      lit "<Connect>" ++ flat_map (noun_xml spaced) nouns ++ lit "</Connect>"
  | Hangup => lit "<Hangup" ++ empty_end spaced
  end.

Definition to_xml (spaced : bool) (doc : VoiceResponse) : str :=
  match doc with
  | [] => lit "<Response" ++ empty_end spaced
  | _ :: _ =>
      lit "<Response>" ++ flat_map (verb_xml spaced) doc ++ lit "</Response>"
  end.

Definition XML_DECLARATION : str :=
  lit "<?xml version=" ++ QUOTE ++ lit "1.0" ++ QUOTE
    ++ lit " encoding=" ++ QUOTE ++ lit "UTF-8" ++ QUOTE ++ lit "?>".

(** [str(response)] of the helper library. *)
Definition VoiceResponse_str (doc : VoiceResponse) : str :=
  XML_DECLARATION ++ to_xml true doc.







End twiml.

(* ------------------------------------------------------------------ *)
(** * The collaborators outside the repository *)
(* ------------------------------------------------------------------ *)

(** What [phonenumbers.parse] returns, as far as the service looks at
    it: [is_valid_number] and the E.164 rendering. *)
Record PhoneNumber : Type := {
  is_valid_number : bool;
  format_E164 : str
}.

Record Collaborators : Type := {
  (** [phonenumbers.parse(raw, None)]; [None] stands for a raised
      [NumberParseException]. *)
  phonenumbers_parse : str -> option PhoneNumber;
  (** [openai.audio.speech.create(...)] followed by
      [response.stream_to_file(...)], for a greeting text. *)
  openai_speech : str -> result unit;
  (** [settings.BASE_URL] *)
  BASE_URL : str;
  (** A failure of the storage engine during a call of the persistence
      gateway, if one happens: it is raised and nothing is written. *)
  storage_failure : option exn
}.

(* ------------------------------------------------------------------ *)
(** * services/greeting_service.py *)
(* ------------------------------------------------------------------ *)

Module greeting_service.

Definition TEMP_AUDIO_DIR_name : str := lit "temp_audio_path".

Definition get_greeting_url (c : Collaborators)
    (name : option str) (phone_number_cleaned : str) : result str :=
  let greeting_filename :=
    lit "greeting_" ++ phone_number_cleaned ++ lit ".mp3" in
  let greeting_text :=
    match name with
    | Some n =>
        if truthy n
        then lit "Hi " ++ n
               ++ lit ", welcome back to Super Truck AI. How can I help you today?"
        else lit "Hi there! I'm Alex, your sales agent at Super Truck AI. How can I assist you?"
    | None =>
        lit "Hi there! I'm Alex, your sales agent at Super Truck AI. How can I assist you?"
    end in
  match openai_speech c greeting_text with
  | Raise e => Raise e
  | Ok _ => Ok (lit "/" ++ TEMP_AUDIO_DIR_name ++ lit "/" ++ greeting_filename)
  end.

End greeting_service.

(* ------------------------------------------------------------------ *)
(** * telephony/twilio_service.py *)
(* ------------------------------------------------------------------ *)

Module twilio_service.

(** [settings.BASE_URL.split('//')[1]] *)
Definition base_host (c : Collaborators) : result str :=
  match nth_error (split2 47%N (BASE_URL c)) 1 with
  | Some h => Ok h
  | None => Raise IndexError
  end.

Definition create_greeting_and_connect_stream_twiml (c : Collaborators)
    (greeting_audio_url : option str) (sid : str) (phone : str)
  : result str :=
  let response : VoiceResponse := [] in
  let response :=
    match greeting_audio_url with
    | Some url =>
        if truthy url then response ++ [Play url] ++ [Pause 1]
        else response ++ [Say (lit "Connecting your call.")]
    | None => response ++ [Say (lit "Connecting your call.")]
    end in
  match base_host c with
  | Raise e => Raise e
  | Ok host =>
      let websocket_url :=
        lit "wss://" ++ host ++ lit "/media-stream/" ++ sid
          ++ lit "/" ++ phone in
      let connect := Connect [Stream websocket_url] in
      let response := response ++ [connect] in
      Ok (twiml.VoiceResponse_str response)
  end.

Definition create_outgoing_connect_stream_twiml (c : Collaborators)
    (sid : str) (to_phone_number : str) : result str :=
  let response : VoiceResponse := [] in
  let response :=
    response ++ [Say (lit "Hello! This is Alex from Super Truck AI.")] in
  match base_host c with
  | Raise e => Raise e
  | Ok host =>
      let websocket_url :=
        lit "wss://" ++ host ++ lit "/media-stream/" ++ sid
          ++ lit "/" ++ to_phone_number in
      let connect := Connect [Stream websocket_url] in
      let response := response ++ [connect] in
      Ok (twiml.VoiceResponse_str response)
  end.

End twilio_service.

(* ------------------------------------------------------------------ *)
(** * telephony/router.py *)
(* ------------------------------------------------------------------ *)

(** The form fields of a carrier request that the service reads;
    [form_data.get(k)] is [None] for a missing field. *)
Record FormData : Type := {
  CallSid : option str;
  From : option str;
  To : option str;
  SpeechResult : option str
}.

(** [await request.form()] may fail on a body that cannot be read. *)
Record Request : Type := {
  form : result FormData;
  base_url : str
}.

Record Response : Type := {
  content : str;
  media_type : str
}.

Module telephony.

Record TwilioData : Type := {
  d_call_sid : option str;
  d_from_number : option str;
  d_to_number : option str;
  d_speech_result : option str
}.

(** One number of the [try] block of [parse_twilio_request]:
    [Raise] when [phonenumbers.parse] raises, otherwise the value
    assigned to the cleaned number (still [None] for a raw value that
    is missing, empty or not valid). *)
Definition clean_number (c : Collaborators) (raw : option str)
  : result (option str) :=
  match raw with
  | Some s =>
      if truthy s then
        match phonenumbers_parse c s with
        | None => Raise NumberParseException
        | Some parsed =>
            if is_valid_number parsed then Ok (Some (format_E164 parsed))
            else Ok None
        end
      else Ok None
  | None => Ok None
  end.

Definition parse_twilio_request (c : Collaborators) (request : Request)
  : result TwilioData :=
  match form request with
  | Raise e => Raise e
  | Ok form_data =>
      let sid := CallSid form_data in
      let from_number_raw := From form_data in
      let to_number_raw := To form_data in
      let from_number : option str := None in
      let to_number : option str := None in
      let '(from_number, to_number) :=
        match clean_number c from_number_raw with
        | Raise _ => (from_number, to_number)
        | Ok from_number =>
            match clean_number c to_number_raw with
            | Raise _ => (from_number, to_number)
            | Ok to_number => (from_number, to_number)
            end
        end in
      Ok {| d_call_sid := sid;
            d_from_number := from_number;
            d_to_number := to_number;
            d_speech_result := SpeechResult form_data |}
  end.

Definition xml_response (s : str) : Response :=
  {| content := s; media_type := lit "application/xml" |}.

Definition ERROR_PROCESSING_CALL : str :=
  lit "<Response><Say>Error processing call.</Say></Response>".

Definition INTERNAL_ERROR : str :=
  lit "<Response><Say>An internal error occurred.</Say></Response>".

Definition HANGUP : str :=
  lit "<Response><Hangup/></Response>".

(** [crud.get_or_create_personal_info(db, phone, call_sid)] as a
    handler sees it: the call of the persistence gateway, or the
    failure of the storage engine. *)
Definition crud_get_or_create_personal_info (c : Collaborators)
    (phone : str) (sid : option str) : M Session (option str) :=
  fun db =>
    match storage_failure c with
    | Some e => (Raise e, db)
    | None =>
        let '(name, db') := crud.get_or_create_personal_info db phone sid in
        (Ok name, db')
    end.

(** The steps shared by the two inbound handlers once the call
    identifier and the caller's number are known. *)
Definition greet_and_connect (c : Collaborators) (request : Request)
    (sid phone : str) : M Session Response :=
  (name <- crud_get_or_create_personal_info c phone (Some sid) ;;
   let cleaned_number := remove_char 43%N phone in
   greeting_url_path <-
     lift (greeting_service.get_greeting_url c name cleaned_number) ;;
   let full_greeting_url :=
     base_url request ++ lstrip_char 47%N greeting_url_path in
   twiml_content <-
     lift (twilio_service.create_greeting_and_connect_stream_twiml
             c (Some full_greeting_url) sid phone) ;;
   ret (xml_response twiml_content))%py.

Definition handle_incoming_try (c : Collaborators) (request : Request)
  : M Session Response :=
  (data <- lift (parse_twilio_request c request) ;;
   let sid := d_call_sid data in
   let phone := d_from_number data in
   if negb (opt_truthy sid) || negb (opt_truthy phone)
   then ret (xml_response ERROR_PROCESSING_CALL)
   else
     match sid, phone with
     | Some sid, Some phone => greet_and_connect c request sid phone
     | _, _ => ret (xml_response ERROR_PROCESSING_CALL)
     end)%py.

Definition handle_incoming (c : Collaborators) (request : Request)
  : M Session Response :=
  try_except (handle_incoming_try c request)
    (fun e => Some (ret (xml_response INTERNAL_ERROR))).

Definition handle_agent_incoming_try (c : Collaborators) (request : Request)
  : M Session Response :=
  (data <- lift (parse_twilio_request c request) ;;
   let sid := d_call_sid data in
   let phone := d_from_number data in
   let agent_number := d_to_number data in
   if negb (opt_truthy sid) || negb (opt_truthy phone)
      || negb (opt_truthy agent_number)
   then ret (xml_response ERROR_PROCESSING_CALL)
   else
     match sid, phone with
     | Some sid, Some phone => greet_and_connect c request sid phone
     | _, _ => ret (xml_response ERROR_PROCESSING_CALL)
     end)%py.

Definition handle_agent_incoming (c : Collaborators) (request : Request)
  : M Session Response :=
  try_except (handle_agent_incoming_try c request)
    (fun e => Some (ret (xml_response INTERNAL_ERROR))).

Definition handle_outgoing_handler_try (c : Collaborators) (request : Request)
  : M Session Response :=
  (data <- lift (parse_twilio_request c request) ;;
   let sid := d_call_sid data in
   let to_number := d_to_number data in
   if negb (opt_truthy sid) || negb (opt_truthy to_number)
   then ret (xml_response HANGUP)
   else
     match sid, to_number with
     | Some sid, Some to_number =>
         twiml_content <-
           lift (twilio_service.create_outgoing_connect_stream_twiml
                   c sid to_number) ;;
         ret (xml_response twiml_content)
     | _, _ => ret (xml_response HANGUP)
     end)%py.

Definition handle_outgoing_handler (c : Collaborators) (request : Request)
  : M Session Response :=
  try_except (handle_outgoing_handler_try c request)
    (fun e => Some (ret (xml_response HANGUP))).

End telephony.

(* ------------------------------------------------------------------ *)
(** * ai/openai_services.py: the realtime session handler *)
(* ------------------------------------------------------------------ *)

Module openai_services.

Definition resource := nat.

Inductive lifecycle : Type := CREATED | RUNNING | STOPPED.

(** Modelled from the spec: the class [RealtimeOpenAIHandler] of
    [ai/openai_services.py] is not among the sources.  The session is
    the transient call session of the data model: call identifier,
    caller number, lifecycle state, and the resources it holds. *)
Record RealtimeOpenAIHandler : Type := {
  h_call_sid : str;
  h_phone_number : str;
  state : lifecycle;
  held : list resource
}.

(** What one run of the opaque session does: the resources it takes
    while it runs and how [start()] ends (normally, by the transport's
    disconnect, or by another failure). *)
Record Run : Type := {
  acquired : list resource;
  outcome : result unit
}.

(** The session together with the log of every resource release. *)
Record Live : Type := {
  handler : RealtimeOpenAIHandler;
  released : list resource
}.

(** Modelled from the spec: [RealtimeOpenAIHandler(websocket,
    SessionLocal, call_sid, phone_number)] creates a session in state
    [CREATED] that holds nothing. *)
Definition new (sid phone : str) : RealtimeOpenAIHandler :=
  {| h_call_sid := sid; h_phone_number := phone;
     state := CREATED; held := [] |}.

(** Modelled from the spec: [start()] hands control to the opaque
    session, which runs until the connection ends or fails. *)
Definition start (run : Run) : M Live unit :=
  fun w =>
    let h := handler w in
    (outcome run,
     {| handler :=
          {| h_call_sid := h_call_sid h; h_phone_number := h_phone_number h;
             state := RUNNING; held := held h ++ acquired run |};
        released := released w |}).

(** Modelled from the spec: [stop()] releases every resource the
    session holds and marks it [STOPPED]; on a session that is already
    stopped it does nothing, and it never raises. *)
Definition stop : M Live unit :=
  fun w =>
    let h := handler w in
    match state h with
    | STOPPED => (Ok tt, w)
    | CREATED | RUNNING =>
        (Ok tt,
         {| handler :=
              {| h_call_sid := h_call_sid h;
                 h_phone_number := h_phone_number h;
                 state := STOPPED; held := [] |};
            released := released w ++ held h |})
    end.

End openai_services.

(* ------------------------------------------------------------------ *)
(** * ai/router.py *)
(* ------------------------------------------------------------------ *)

Module ai_router.

Import openai_services.

(** The calls the endpoint makes on the transport and on the session
    handler, in the order it makes them. *)
Inductive call : Type := accept_called | start_called | stop_called.

Record World : Type := {
  session : option Live;
  calls : list call
}.

Definition initial : World := {| session := None; calls := [] |}.

Definition is_stop (k : call) : bool :=
  match k with stop_called => true | _ => false end.

(** How many times [stop()] was called. *)
Definition stop_count (w : World) : nat :=
  length (filter is_stop (calls w)).

Definition record_call (k : call) : M World unit :=
  fun w => (Ok tt, {| session := session w; calls := calls w ++ [k] |}).

(** Runs a method of the handler on the session of the world. *)
Definition on_handler (m : M Live unit) : M World unit :=
  fun w =>
    match session w with
    | Some l =>
        let '(r, l') := m l in
        (r, {| session := Some l'; calls := calls w |})
    | None => (Ok tt, w)
    end.

(** [await websocket.accept()] *)
Definition websocket_accept (accept : result unit) : M World unit :=
  (record_call accept_called ;;; lift accept)%py.

(** [handler = RealtimeOpenAIHandler(websocket, SessionLocal, call_sid,
    phone_number)] *)
Definition create_handler (sid phone : str) : M World unit :=
  fun w =>
    (Ok tt,
     {| session := Some {| handler := new sid phone; released := [] |};
        calls := calls w |}).

Definition handler_start (run : Run) : M World unit :=
  (record_call start_called ;;; on_handler (start run))%py.

Definition handler_stop : M World unit :=
  (record_call stop_called ;;; on_handler stop)%py.

Definition media_stream_endpoint
    (accept : result unit) (run : Run) (sid phone : str) : M World unit :=
  (websocket_accept accept ;;;
   create_handler sid phone ;;;
   try_finally
     (try_except (handler_start run)
        (fun e =>
           match e with
           | WebSocketDisconnect => Some handler_stop
           | _ => Some handler_stop
           end))
     handler_stop)%py.

End ai_router.

(* ------------------------------------------------------------------ *)
(** * telephony: the calls to the carrier's REST interface *)
(* ------------------------------------------------------------------ *)

(** [make_twilio_outgoing_call] and [buy_twilio_number] of
    [telephony/twilio_service.py], and the endpoint
    [initiate_outgoing_call] of [telephony/router.py]. *)
Module rest.

(** An exception together with the text [str(e)] gives for it: the
    [ValueError] of the endpoint's validation, or whatever the REST
    client raises. *)
Inductive raised : Type :=
| ValueError (msg : str)
| ClientError (msg : str).

Definition str_of (e : raised) : str :=
  match e with ValueError msg | ClientError msg => msg end.

Inductive outcome (A : Type) : Type :=
| Returned (a : A)
| Raised (e : raised).
Arguments Returned {A} a.
Arguments Raised {A} e.

(** The requests made to the REST client, in order. *)
Inductive request : Type :=
| calls_create (to from_ url : str)
| available_local_list (area_code limit : nat)
| incoming_create (number : str).

(** The REST client and the setting it is used with:
    [twilio_client.calls.create] returns the identifier of the call,
    [available_phone_numbers("US").local.list] the numbers found,
    [incoming_phone_numbers.create] the number bought. *)
Record TwilioClient : Type := {
  on_calls_create : str -> str -> str -> outcome str;
  on_available_local_list : nat -> nat -> outcome (list str);
  on_incoming_create : str -> outcome str;
  TWILIO_PHONE_NUMBER : str
}.

Definition R (A : Type) : Type := list request -> outcome A * list request.

Definition make_twilio_outgoing_call
    (t : TwilioClient) (c : Collaborators) (to_phone_number : str) : R str :=
  fun log =>
    let url := BASE_URL c ++ lit "/telephony/outgoing-call-handler" in
    let log :=
      log ++ [calls_create to_phone_number (TWILIO_PHONE_NUMBER t) url] in
    match on_calls_create t to_phone_number (TWILIO_PHONE_NUMBER t) url with
    | Returned call_sid => (Returned call_sid, log)
    | Raised e => (Raised e, log)
    end.

Definition buy_twilio_number (t : TwilioClient) (area_code : nat)
  : R (option str) :=
  fun log =>
    let log := log ++ [available_local_list area_code 1] in
    match on_available_local_list t area_code 1 with
    | Raised _ => (Returned None, log)
    | Returned available_numbers =>
        match available_numbers with
        | number_to_buy :: _ =>
            let log := log ++ [incoming_create number_to_buy] in
            match on_incoming_create t number_to_buy with
            | Returned purchased_number => (Returned (Some purchased_number), log)
            | Raised _ => (Returned None, log)
            end
        | [] => (Returned None, log)
        end
    end.

(** What the endpoint hands to the web framework: the JSON body of a
    success, or the [HTTPException] it raises. *)
Inductive reply : Type :=
| Json (status message call_sid : str)
| HTTPException (status_code : nat) (detail : str).

Definition INVALID_TO_NUMBER : str :=
  lit "Invalid 'to_number' format. Must be E.164.".

Definition initiate_outgoing_call
    (t : TwilioClient) (c : Collaborators) (to_number : str)
  : list request -> reply * list request :=
  fun log =>
    let attempt : outcome str * list request :=
      if negb (truthy to_number) || negb (startswith (lit "+") to_number)
      then (Raised (ValueError INVALID_TO_NUMBER), log)
      else make_twilio_outgoing_call t c to_number log in
    match attempt with
    | (Returned call_sid, log) =>
        (Json (lit "success") (lit "Outgoing call initiated.") call_sid, log)
    | (Raised e, log) =>
        (HTTPException 500 (lit "Failed to initiate call: " ++ str_of e), log)
    end.

End rest.

(* ------------------------------------------------------------------ *)
(** * database/session.py *)
(* ------------------------------------------------------------------ *)

Module session.

(** The calls made on the session factory and on the session it
    returned, in order. *)
Inductive op : Type := SessionLocal | commit | rollback | close.

(** How the calls on the session end. *)
Record Engine : Type := {
  on_commit : result unit;
  on_rollback : result unit;
  on_close : result unit
}.

Definition call (k : op) (r : result unit) : M (list op) unit :=
  fun log => (r, log ++ [k]).

(** [get_db]: the dependency that lends a session to a route; [route]
    is what runs while the generator is suspended at [yield db]. *)
Definition get_db {A} (e : Engine) (route : M (list op) A)
  : M (list op) A :=
  (call SessionLocal (Ok tt) ;;;
   try_finally route (call close (on_close e)))%py.

(** [with DatabaseSession() as db: block] *)
Definition DatabaseSession {A} (e : Engine) (block : M (list op) A)
  : M (list op) A :=
  (call SessionLocal (Ok tt) ;;;
   try_finally
     (try_except
        (a <- block ;; call commit (on_commit e) ;;; ret a)
        (fun x => Some (call rollback (on_rollback e) ;;; raise x)))
     (call close (on_close e)))%py.

Definition count (k : op) (log : list op) : nat :=
  length (filter (fun x => match x, k with
                           | SessionLocal, SessionLocal | commit, commit
                           | rollback, rollback | close, close => true
                           | _, _ => false
                           end) log).

End session.

(* ------------------------------------------------------------------ *)
(** * More of Python's [str] *)
(* ------------------------------------------------------------------ *)

Module PyStr.

(** [c.isspace()]: the code points of general category [Zs] or of
    bidirectional class [WS], [B] or [S]. *)
Definition isspace (c : char) : bool :=
  existsb (N.eqb c)
    [ 9; 10; 11; 12; 13; 28; 29; 30; 31; 32; 133; 160; 5760;
      8192; 8193; 8194; 8195; 8196; 8197; 8198; 8199; 8200; 8201; 8202;
      8232; 8233; 8239; 8287; 12288 ]%N.

Fixpoint lstrip (s : str) : str :=
  match s with
  | x :: s' => if isspace x then lstrip s' else s
  | [] => []
  end.

Definition rstrip (s : str) : str := rev (lstrip (rev s)).

(** [s.strip()] *)
Definition strip (s : str) : str := rstrip (lstrip s).

(** [s.split(sep)] for a one-character [sep]; [cur] holds the piece
    being read, reversed. *)
Fixpoint split_from (sep : char) (cur : str) (s : str) : list str :=
  match s with
  | [] => [rev cur]
  | x :: t =>
      if char_eqb x sep then rev cur :: split_from sep [] t
      else split_from sep (x :: cur) t
  end.

Definition split (sep : char) (s : str) : list str := split_from sep [] s.

(** The text before and after the first occurrence of [sep] in [s]. *)
Fixpoint partition_from (sep : str) (before : str) (s : str)
  : option (str * str) :=
  if startswith sep s then Some (rev before, skipn (length sep) s)
  else
    match s with
    | [] => None
    | x :: t => partition_from sep (x :: before) t
    end.

(** [s.split(sep, 1)] for a non-empty [sep] *)
Definition split_once (sep : str) (s : str) : list str :=
  match partition_from sep [] s with
  | Some (before, after) => [before; after]
  | None => [s]
  end.

(** [c in s] for a one-character [c] *)
Definition contains (c : char) (s : str) : bool := existsb (char_eqb c) s.

End PyStr.

(* ------------------------------------------------------------------ *)
(** * services/info_extraction.py *)
(* ------------------------------------------------------------------ *)

Module info_extraction.

Import PyStr.

(** The parts of the environment the extraction relies on:
    [s.lower()], which follows the case tables of the Unicode database,
    and the chat completion, called with the system and the user
    message; it gives [response.choices[0].message.content], and its
    failure stands for any exception of the call or of that access. *)
Record Environment : Type := {
  lower : str -> str;
  chat_completion : str -> str -> result str
}.

Definition SYSTEM_MESSAGE : str :=
  lit "You are an expert text analysis assistant. Extract names and emails precisely. Output only in the format 'Name: [name/None] | Email: [email/None]'.".

Definition prompt_of (text : str) : str :=
  LF ++
  lit "    Analyze the following text and extract the person's full name and email address if present." ++ LF ++
  lit "    If a name is mentioned, provide the full name." ++ LF ++
  lit "    If an email address is mentioned, provide the email address." ++ LF ++
  lit "    If either is not found, output 'None' for that field." ++ LF ++
  lit "    Format the output *exactly* as: Name: [extracted name or None] | Email: [extracted email or None]" ++ LF ++
  LF ++
  lit "    Text: " ++ twiml.QUOTE ++ text ++ twiml.QUOTE ++ LF ++
  lit "    ".

(** The parsing of the stripped answer, from [extracted_name = None] to
    the [return]. *)
Definition parse_answer (env : Environment) (result_text : str)
  : option str * option str :=
  let extracted_name : option str := None in
  let extracted_email : option str := None in
  let parts := split 124%N result_text in
  match parts with
  | [part0; part1] =>
      let extracted_name :=
        match split_once (lit "Name:") part0 with
        | [_; after] =>
            let name_str := strip after in
            if negb (str_eqb (lower env name_str) (lit "none"))
            then Some name_str else extracted_name
        | _ => extracted_name
        end in
      let extracted_email :=
        match split_once (lit "Email:") part1 with
        | [_; after] =>
            let email_str := strip after in
            if negb (str_eqb (lower env email_str) (lit "none"))
            then
              if contains 64%N email_str && contains 46%N email_str
              then Some email_str else extracted_email
            else extracted_email
        | _ => extracted_email
        end in
      (extracted_name, extracted_email)
  | _ => (extracted_name, extracted_email)
  end.

(** The state is the list of the user messages sent to the model. *)
Definition ask (env : Environment) (prompt : str) : M (list str) str :=
  fun sent => (chat_completion env SYSTEM_MESSAGE prompt, sent ++ [prompt]).

Definition extract_name_and_email_from_text
    (env : Environment) (text : str)
  : M (list str) (option str * option str) :=
  if negb (truthy text) || negb (truthy (strip text))
  then ret (None, None)
  else
    let prompt := prompt_of text in
    try_except
      (content <- ask env prompt ;;
       let result_text := strip content in
       ret (parse_answer env result_text))%py
      (fun e => Some (ret (None, None))).

End info_extraction.

(* ------------------------------------------------------------------ *)
(** * database: carriers and assistants *)
(* ------------------------------------------------------------------ *)

(** The rows of the tables [carriers] and [assistants] of
    [database/models.py], without the columns the storage engine fills
    from its clock. *)
Record CarrierDB : Type := {
  carrier_id : nat;
  mc_number : str;
  carrier_name : option str;
  city : str;
  carrier_state : str;
  country : str;
  carrier_region : option str;
  phone : str;
  agent_name : option str
}.

Record AssistantDB : Type := {
  assistant_id : nat;
  twilio_number : str;
  region : option str;
  assistant_carrier_id : option nat
}.

(** The two tables as a [Session] shows them; the functions on them
    touch no other table. *)
Record Fleet : Type := {
  carriers : list CarrierDB;
  assistants : list AssistantDB
}.

(** The functions of [database/crud.py] on carriers and assistants. *)
Module fleet.

Definition find_carrier_by_phone (db : Fleet) (p : str) : option CarrierDB :=
  hd_error (filter (fun x => str_eqb (phone x) p) (carriers db)).

Definition find_assistant_by_carrier (db : Fleet) (cid : nat)
  : option AssistantDB :=
  hd_error
    (filter (fun a => match assistant_carrier_id a with
                      | Some k => Nat.eqb k cid
                      | None => false
                      end)
            (assistants db)).

Definition find_carrier_by_mc_number (db : Fleet) (mc : str)
  : option CarrierDB :=
  hd_error (filter (fun x => str_eqb (mc_number x) mc) (carriers db)).

(** [db.add(carrier); db.commit(); db.refresh(carrier)]: the carrier
    returned carries the key the table gave it. *)
Definition create_carrier
    (db : Fleet) (mc town st ph agent : str) : CarrierDB * Fleet :=
  let carrier :=
    {| carrier_id := crud.next_id (map carrier_id (carriers db));
       mc_number := mc; carrier_name := None;
       city := town; carrier_state := st; country := lit "USA";
       carrier_region := None; phone := ph; agent_name := Some agent |} in
  (carrier,
   {| carriers := carriers db ++ [carrier]; assistants := assistants db |}).

Definition create_assistant
    (db : Fleet) (number reg : str) (cid : nat) : AssistantDB * Fleet :=
  let assistant :=
    {| assistant_id := crud.next_id (map assistant_id (assistants db));
       twilio_number := number; region := Some reg;
       assistant_carrier_id := Some cid |} in
  (assistant,
   {| carriers := carriers db; assistants := assistants db ++ [assistant] |}).

End fleet.

(* ------------------------------------------------------------------ *)
(** * Vocabulary of the properties *)
(* ------------------------------------------------------------------ *)

(** [p] is a prefix of [s]; the prefix is strict when something follows. *)
Definition prefix_of (p s : str) : Prop := exists rest, s = p ++ rest.

Definition strict_prefix_of (p s : str) : Prop :=
  exists rest, rest <> [] /\ s = p ++ rest.

(** A phone number is supplied: [if phone_number:] takes [None] and the
    empty string alike for no phone number. *)
Definition supplied (p : str) : Prop := p <> [].

(** The phone number has a stored conversation. *)
Definition has_conversation (db : Session) (p : str) : Prop :=
  exists c, In c (conversations db) /\ conv_phone_number c = p.

(** Rows in the order of a fetch: a row never precedes a newer one. *)
Definition newest_first (rows : list ConversationDB) : Prop :=
  Sorted (fun a b => conv_id b <= conv_id a) rows.

(** No identity record carries the phone number. *)
Definition unknown_caller (db : Session) (p : str) : Prop :=
  forall r, In r (personal_info db) -> phone_number r <> p.

(** The request has no call identifier: the field is missing or empty. *)
Definition lacks_call_sid (fd : FormData) : Prop :=
  CallSid fd = None \/ CallSid fd = Some [].

(** The raw number parses to a valid number. *)
Definition parsable (c : Collaborators) (raw : str) : Prop :=
  exists n, phonenumbers_parse c raw = Some n /\ is_valid_number n = true.

(** The request has no caller number that parses: the field is missing,
    empty, or not a valid number. *)
Definition lacks_caller_number (c : Collaborators) (fd : FormData) : Prop :=
  match From fd with
  | None => True
  | Some raw => raw = [] \/ ~ parsable c raw
  end.


(** The primary key of the identity table identifies its rows. *)
Definition primary_key (db : Session) : Prop :=
  NoDup (map id (personal_info db)).

Module digest.

Import prompts.

Definition HEADER : str :=
  LF ++ lit "--- Previous Conversation Summary ---" ++ LF.

Definition FOOTER : str := lit "--- End of Summary ---" ++ LF.

(** The entries of the digest for the conversations [past] as the
    store returned them (newest first): position [k] of the result is
    the entry printed in [k]-th place. *)
Definition numbered (len_past i : nat) (items : list (str * option str))
  : list str :=
  map (fun '(k, (text, _)) => digest_entry (len_past - k) (summary_of text))
      (combine (seq i (length items)) items).

Definition entries (past : list (str * option str)) : list str :=
  numbered (length past) 0 (rev past).

(** The label printed in place [k] (counted from 0) of a digest of
    [n] entries. *)
Definition label (n k : nat) : nat := n - k.

End digest.

(** Sample data used to run the definitions. *)
Module sample.

Definition PHONE : str := lit "+15551234567".
Definition NEW_PHONE : str := lit "+15550001111".
Definition OTHER_PHONE : str := lit "+15559998888".
Definition SID : str := lit "CA123".

Definition conversation (i : nat) (p text : str) : ConversationDB :=
  {| conv_id := i; conv_phone_number := p; transcript := text;
     system_message := Some prompts.BASE_INSTRUCTIONS |}.

Definition empty_db : Session :=
  {| personal_info := []; conversations := [] |}.

(** Two calls from [PHONE], the older one stored first. *)
Definition two_calls : Session :=
  {| personal_info := [];
     conversations :=
       [ conversation 1 PHONE (lit "first");
         conversation 2 OTHER_PHONE (lit "elsewhere");
         conversation 3 PHONE (lit "second") ] |}.


Definition alice : PersonalInfoDB :=
  {| id := 1; phone_number := PHONE; call_sid := Some (lit "CA100");
     full_name := Some (lit "Alice"); email := None |}.

Definition bob : PersonalInfoDB :=
  {| id := 2; phone_number := OTHER_PHONE; call_sid := None;
     full_name := None; email := Some (lit "bob@example.com") |}.

Definition known : Session :=
  {| personal_info := [alice; bob]; conversations := [] |}.

Definition working : Collaborators :=
  {| phonenumbers_parse :=
       fun s => if startswith (lit "+") s
                then Some {| is_valid_number := true; format_E164 := s |}
                else None;
     openai_speech := fun _ => Ok tt;
     BASE_URL := lit "http://localhost:5050";
     storage_failure := None |}.

Definition request_of (fd : FormData) : Request :=
  {| form := Ok fd; base_url := lit "http://localhost:5050/" |}.

Definition no_call_sid : FormData :=
  {| CallSid := None; From := Some PHONE; To := Some OTHER_PHONE;
     SpeechResult := None |}.

Definition inbound : FormData :=
  {| CallSid := Some SID; From := Some PHONE; To := Some OTHER_PHONE;
     SpeechResult := None |}.

End sample.

(** Further vocabulary for the store and the digest. *)
Module store.

(** No two identity records carry the same phone number. *)
Definition unique_phones (db : Session) : Prop :=
  NoDup (map phone_number (personal_info db)).

(** The keys of the conversation log identify its rows. *)
Definition conversation_keys (db : Session) : Prop :=
  NoDup (map conv_id (conversations db)).

(** The conversations stored for a phone number. *)
Definition log_of (db : Session) (p : str) : list ConversationDB :=
  filter (fun c => str_eqb (conv_phone_number c) p) (conversations db).

(** What a fetch returns for a stored row. *)
Definition as_pair (c : ConversationDB) : str * option str :=
  (transcript c, system_message c).

(** The longest digest: the delimiters and three entries, each a label
    line of thirteen characters at most around a summary of 503. *)
Definition DIGEST_BOUND : nat :=
  length digest.HEADER + 3 * (503 + 10) + length digest.FOOTER.

End store.

(** Sample data for the services around the call flow. *)
Module sample_services.

(** [lower] on the letters A to Z, enough for the sample answers. *)
Definition ascii_lower (s : str) : str :=
  map (fun c => if N.leb 65 c && N.leb c 90 then (c + 32)%N else c) s.

(** A model that gives the same answer to every question. *)
Definition answering (answer : str) : info_extraction.Environment :=
  {| info_extraction.lower := ascii_lower;
     info_extraction.chat_completion := fun _ _ => Ok answer |}.

Definition TRANSCRIPT : str :=
  lit "Hi, this is Bob Stone, you can reach me at bob@example.com".

Definition client : rest.TwilioClient :=
  {| rest.on_calls_create := fun _ _ _ => rest.Returned (lit "CA900");
     rest.on_available_local_list :=
       fun _ _ => rest.Returned [lit "+15105550100"];
     rest.on_incoming_create := fun number => rest.Returned number;
     rest.TWILIO_PHONE_NUMBER := lit "+15105550000" |}.

Definition acme : CarrierDB :=
  {| carrier_id := 1; mc_number := lit "MC100"; carrier_name := None;
     city := lit "Oakland"; carrier_state := lit "CA";
     country := lit "USA"; carrier_region := None;
     phone := lit "+15105550001"; agent_name := Some (lit "Alex") |}.

Definition one_carrier : Fleet :=
  {| carriers := [acme]; assistants := [] |}.

(** Collaborators whose speech synthesis fails. *)
Definition mute : Collaborators :=
  {| phonenumbers_parse := phonenumbers_parse sample.working;
     openai_speech := fun _ => Raise (OtherException "APIError"%string);
     BASE_URL := BASE_URL sample.working;
     storage_failure := None |}.

(** A connected outbound call whose [From] field is not a number. *)
Definition withheld : FormData :=
  {| CallSid := Some sample.SID; From := Some (lit "anonymous");
     To := Some sample.OTHER_PHONE; SpeechResult := None |}.

Definition parsed_phone : PhoneNumber :=
  {| is_valid_number := true; format_E164 := sample.PHONE |}.

End sample_services.

(* ------------------------------------------------------------------ *)
(** * Strings and lists *)
(* ------------------------------------------------------------------ *)

Lemma str_eqb_refl (a : str) : str_eqb a a = true.
Proof.
  induction a as [|x a IH]; simpl; [reflexivity|].
  unfold char_eqb. now rewrite N.eqb_refl.
Qed.

Lemma str_eqb_eq (a b : str) : str_eqb a b = true <-> a = b.
Proof.
  split.
  - revert b. induction a as [|x a IH]; intros [|y b] H; simpl in H;
      try discriminate; [reflexivity|].
    apply andb_true_iff in H. destruct H as [Hx Hab].
    apply N.eqb_eq in Hx. apply IH in Hab. now subst.
  - intros ->. apply str_eqb_refl.
Qed.

Lemma str_eqb_neq (a b : str) : str_eqb a b = false <-> a <> b.
Proof.
  split.
  - intros H E. apply str_eqb_eq in E. congruence.
  - intros H. destruct (str_eqb a b) eqn:E; [|reflexivity].
    apply str_eqb_eq in E. contradiction.
Qed.

Lemma opt_str_eqb_eq (a b : option str) : opt_str_eqb a b = true <-> a = b.
Proof.
  destruct a, b; simpl; try (split; congruence).
  rewrite str_eqb_eq. split; congruence.
Qed.

Lemma opt_str_eqb_neq (a b : option str) : opt_str_eqb a b = false <-> a <> b.
Proof.
  split.
  - intros H E. apply opt_str_eqb_eq in E. congruence.
  - intros H. destruct (opt_str_eqb a b) eqn:E; [|reflexivity].
    apply opt_str_eqb_eq in E. contradiction.
Qed.

Lemma truthy_nonempty (s : str) : truthy s = true <-> s <> [].
Proof.
  destruct s; simpl; split; congruence.
Qed.

(* ------------------------------------------------------------------ *)
(** * The store *)
(* ------------------------------------------------------------------ *)

Lemma insert_desc_length c l :
  length (crud.insert_desc c l) = S (length l).
Proof.
  induction l as [|d l IH]; simpl; [reflexivity|].
  destruct (Nat.leb (conv_id d) (conv_id c)); simpl; [reflexivity|].
  now rewrite IH.
Qed.

Lemma order_by_id_desc_length l :
  length (crud.order_by_id_desc l) = length l.
Proof.
  induction l as [|c l IH]; simpl; [reflexivity|].
  unfold crud.order_by_id_desc in *. simpl.
  now rewrite insert_desc_length, IH.
Qed.

Lemma insert_desc_perm c l : Permutation (c :: l) (crud.insert_desc c l).
Proof.
  induction l as [|d l IH]; simpl; [apply Permutation_refl|].
  destruct (Nat.leb (conv_id d) (conv_id c)); [apply Permutation_refl|].
  eapply Permutation_trans; [apply perm_swap|]. now apply perm_skip.
Qed.

Lemma order_by_id_desc_perm l : Permutation l (crud.order_by_id_desc l).
Proof.
  induction l as [|c l IH]; [apply Permutation_refl|].
  unfold crud.order_by_id_desc in *. simpl.
  eapply Permutation_trans; [|apply insert_desc_perm]. now apply perm_skip.
Qed.

Lemma insert_desc_sorted c l :
  newest_first l -> newest_first (crud.insert_desc c l).
Proof.
  unfold newest_first.
  induction l as [|d l IH]; intros Hs; simpl.
  - repeat constructor.
  - destruct (Nat.leb_spec (conv_id d) (conv_id c)) as [Hle|Hlt].
    + constructor; [assumption|]. now constructor.
    + inversion Hs as [|? ? Hs' Hhd]. subst.
      constructor; [now apply IH|].
      destruct l as [|e l]; simpl.
      * constructor. lia.
      * destruct (Nat.leb (conv_id e) (conv_id c)).
        -- constructor. lia.
        -- inversion Hhd. now constructor.
Qed.

(** The ordering puts the rows newest first and loses none. *)
Lemma order_by_id_desc_sorted l : newest_first (crud.order_by_id_desc l).
Proof.
  induction l as [|c l IH]; [constructor|].
  unfold crud.order_by_id_desc in *. simpl. now apply insert_desc_sorted.
Qed.

Lemma get_past_conversations_length db p limit :
  length (crud.get_past_conversations_limit db p limit)
  = Nat.min limit
      (length (filter (fun c => str_eqb (conv_phone_number c) p)
                      (conversations db))).
Proof.
  unfold crud.get_past_conversations_limit.
  now rewrite length_map, length_firstn, order_by_id_desc_length.
Qed.

Lemma has_conversation_past db p :
  has_conversation db p -> crud.get_past_conversations db p <> [].
Proof.
  intros (c & Hin & Hp) E.
  apply (f_equal (@length _)) in E.
  unfold crud.get_past_conversations in E.
  rewrite get_past_conversations_length in E. simpl in E.
  assert (Hf : In c (filter (fun c => str_eqb (conv_phone_number c) p)
                             (conversations db))).
  { apply filter_In. split; [assumption|]. now apply str_eqb_eq. }
  destruct (filter _ (conversations db)) as [|x l]; [contradiction|].
  simpl in E. destruct l as [|? [|? ?]]; discriminate.
Qed.

Lemma past_has_conversation db p :
  crud.get_past_conversations db p <> [] -> has_conversation db p.
Proof.
  intros H.
  assert (Hl : length (crud.get_past_conversations db p) <> 0).
  { intros E. apply length_zero_iff_nil in E. contradiction. }
  unfold crud.get_past_conversations in Hl.
  rewrite get_past_conversations_length in Hl.
  destruct (filter _ (conversations db)) as [|c l] eqn:Ef.
  - simpl in Hl. lia.
  - assert (Hin : In c (filter (fun c => str_eqb (conv_phone_number c) p)
                               (conversations db))).
    { rewrite Ef. now left. }
    apply filter_In in Hin. destruct Hin as [Hin Hp].
    exists c. split; [assumption|]. now apply str_eqb_eq.
Qed.

(* ------------------------------------------------------------------ *)
(** * The context assembler *)
(* ------------------------------------------------------------------ *)

Section Assembler.

Import prompts.

Lemma numbered_cons n i x items :
  digest.numbered n i (x :: items)
  = digest_entry (n - i) (summary_of (fst x)) :: digest.numbered n (S i) items.
Proof.
  unfold digest.numbered. destruct x as [text sysmsg]. reflexivity.
Qed.

Lemma numbered_length n i items :
  length (digest.numbered n i items) = length items.
Proof.
  unfold digest.numbered.
  rewrite length_map, length_combine, length_seq. apply Nat.min_id.
Qed.

(** The loop appends the numbered entries, in the order of [items]. *)
Lemma digest_loop_eq n items : forall i acc,
  digest_loop n i items acc = acc ++ concat (digest.numbered n i items).
Proof.
  induction items as [|[text sysmsg] items IH]; intros i acc.
  - unfold digest.numbered. simpl. now rewrite app_nil_r.
  - rewrite numbered_cons. cbn [digest_loop concat fst].
    rewrite IH. now rewrite <- app_assoc.
Qed.

Lemma dynamic_context_eq past :
  dynamic_context_of past
  = digest.HEADER ++ concat (digest.entries past) ++ digest.FOOTER.
Proof.
  unfold dynamic_context_of. rewrite digest_loop_eq.
  fold digest.HEADER. fold digest.FOOTER. unfold digest.entries.
  now rewrite <- app_assoc.
Qed.

Lemma generate_without_phone db :
  generate_openai_instructions db None = (BASE_INSTRUCTIONS, false).
Proof. reflexivity. Qed.

Lemma generate_without_history db p :
  crud.get_past_conversations db p = [] ->
  generate_openai_instructions db (Some p) = (BASE_INSTRUCTIONS, false).
Proof.
  intros H. unfold generate_openai_instructions. rewrite H.
  now destruct (opt_truthy (Some p)).
Qed.

Lemma generate_with_history db p :
  truthy p = true ->
  crud.get_past_conversations db p <> [] ->
  generate_openai_instructions db (Some p)
  = (BASE_INSTRUCTIONS
       ++ (LF ++ RETURNING_CALLER_INSTRUCTIONS)
       ++ digest.HEADER
       ++ concat (digest.entries (crud.get_past_conversations db p))
       ++ digest.FOOTER,
     true).
Proof.
  intros Hp Hpast. unfold generate_openai_instructions.
  cbn [opt_truthy]. rewrite Hp.
  destruct (crud.get_past_conversations db p) as [|c past] eqn:E;
    [contradiction|].
  cbn [list_truthy]. rewrite dynamic_context_eq.
  now rewrite <- app_assoc.
Qed.

(** Position [k] of the digest holds the [k]-th oldest of the fetched
    conversations, cut to its summary, under the label [n - k]. *)
Lemma numbered_nth n items : forall i k d,
  k < length items ->
  nth k (digest.numbered n i items) d
  = digest_entry (n - (i + k)) (summary_of (fst (nth k items ([], None)))).
Proof.
  induction items as [|x items IH]; intros i k d Hk; simpl in Hk; [lia|].
  rewrite numbered_cons. destruct k as [|k]; simpl.
  - now rewrite Nat.add_0_r.
  - rewrite IH by lia. now rewrite Nat.add_succ_r.
Qed.

Lemma entries_nth past k d :
  k < length past ->
  nth k (digest.entries past) d
  = digest_entry (digest.label (length past) k)
      (summary_of (fst (nth k (rev past) ([], None)))).
Proof.
  intros Hk. unfold digest.entries, digest.label.
  rewrite numbered_nth by (now rewrite length_rev). reflexivity.
Qed.



End Assembler.

Section AssemblerProperties.

Import prompts.

Lemma generate_empty_phone db :
  generate_openai_instructions db (Some []) = (BASE_INSTRUCTIONS, false).
Proof. reflexivity. Qed.

Lemma entries_nth_error past k :
  k < length past ->
  nth_error (digest.entries past) k
  = Some (digest_entry (digest.label (length past) k)
            (summary_of (fst (nth k (rev past) ([], None))))).
Proof.
  intros Hk. rewrite <- (@entries_nth past k [] Hk).
  apply nth_error_nth'. unfold digest.entries.
  now rewrite numbered_length, length_rev.
Qed.

(** C7: whatever the phone number (or none) and whatever the store
    holds, the text returned by [generate_openai_instructions] starts
    with [BASE_INSTRUCTIONS]. *)
Theorem C7_persona_is_prefix (db : Session) (phone : option str) :
  prefix_of BASE_INSTRUCTIONS
    (fst (generate_openai_instructions db phone)).
Proof.
  destruct phone as [p|].
  - destruct p as [|x p].
    + rewrite generate_empty_phone. exists []. now rewrite app_nil_r.
    + destruct (crud.get_past_conversations db (x :: p)) as [|c past] eqn:E.
      * rewrite (generate_without_history db _ E).
        exists []. now rewrite app_nil_r.
      * rewrite generate_with_history; [|reflexivity|congruence].
        eexists. reflexivity.
  - rewrite generate_without_phone. exists []. now rewrite app_nil_r.
Qed.

(** C5: for a supplied phone number with at least one stored
    conversation, [generate_openai_instructions] returns
    [is_returning = True], and
    its text is the text returned when there is no history followed by
    the returning-caller notice and the digest, which are not empty. *)
Theorem C5_returning_caller_extends_base (db db0 : Session) (p : str) :
  supplied p ->
  has_conversation db p ->
  ~ has_conversation db0 p ->
  let past := crud.get_past_conversations db p in
  let text := fst (generate_openai_instructions db (Some p)) in
  let no_history := fst (generate_openai_instructions db0 (Some p)) in
  snd (generate_openai_instructions db (Some p)) = true
  /\ no_history = fst (generate_openai_instructions db None)
  /\ strict_prefix_of no_history text
  /\ text = no_history
            ++ (LF ++ RETURNING_CALLER_INSTRUCTIONS)
            ++ digest.HEADER ++ concat (digest.entries past)
            ++ digest.FOOTER.
Proof.
  intros Hp Hdb Hdb0 past text no_history.
  assert (Hpast : past <> []) by now apply has_conversation_past.
  assert (H0 : crud.get_past_conversations db0 p = []).
  { destruct (crud.get_past_conversations db0 p) as [|c l] eqn:E;
      [reflexivity|].
    exfalso. apply Hdb0, past_has_conversation. congruence. }
  apply truthy_nonempty in Hp.
  subst text no_history.
  rewrite (@generate_with_history db p Hp Hpast).
  rewrite (generate_without_history db0 _ H0), generate_without_phone.
  cbn [fst snd]. repeat split.
  eexists. split; [|reflexivity].
  unfold LF. discriminate.
Qed.


(** The entry printed first is the one of the conversation fetched
    last (the oldest), and its label is the number of entries. *)
Lemma first_entry_label_is_count past :
  past <> [] ->
  hd_error (digest.entries past)
  = Some (digest_entry (length past)
            (summary_of (fst (last past ([], None))))).
Proof.
  intros Hne.
  assert (Hlen : 0 < length past).
  { destruct past; [contradiction | simpl; lia]. }
  rewrite <- nth_error_0.
  rewrite (@entries_nth_error past 0 Hlen).
  unfold digest.label. rewrite Nat.sub_0_r.
  destruct (exists_last Hne) as (front & x & ->).
  now rewrite rev_app_distr, last_last.
Qed.

(** C1: the store holds two conversations of one phone number,
    ["first"] (key 1, the older) and ["second"] (key 3, the newer).
    The digest prints the older one first, under the label 2, and the
    newer one after it, under the label 1. *)
Example C1_oldest_entry_carries_label_N :
  fst (generate_openai_instructions sample.two_calls (Some sample.PHONE))
  = BASE_INSTRUCTIONS ++ LF ++ RETURNING_CALLER_INSTRUCTIONS
      ++ LF ++ lit "--- Previous Conversation Summary ---" ++ LF
      ++ lit "Call 2:" ++ LF ++ lit "first" ++ LF ++ LF
      ++ lit "Call 1:" ++ LF ++ lit "second" ++ LF ++ LF
      ++ lit "--- End of Summary ---" ++ LF.
Proof. vm_compute. reflexivity. Qed.

End AssemblerProperties.

(* ------------------------------------------------------------------ *)
(** * The persistence gateway *)
(* ------------------------------------------------------------------ *)

Section Gateway.

Import crud.

Lemma unknown_caller_filter db p :
  unknown_caller db p -> filter_by_phone p (personal_info db) = [].
Proof.
  unfold unknown_caller, filter_by_phone.
  induction (personal_info db) as [|x l IH]; intros H; simpl; [reflexivity|].
  destruct (str_eqb (phone_number x) p) eqn:E.
  - apply str_eqb_eq in E. exfalso. apply (H x); [now left | assumption].
  - apply IH. intros r Hr. apply H. now right.
Qed.

Lemma query_first_None db p :
  query_first db p = None <-> unknown_caller db p.
Proof.
  split.
  - unfold query_first, unknown_caller, filter_by_phone. intros H r Hr Hp.
    assert (Hin : In r (filter (fun r => str_eqb (phone_number r) p)
                               (personal_info db))).
    { apply filter_In. split; [assumption|]. now apply str_eqb_eq. }
    destruct (filter _ (personal_info db)); [contradiction | discriminate].
  - intros H. unfold query_first. now rewrite unknown_caller_filter.
Qed.

Lemma query_first_In db p r :
  query_first db p = Some r -> In r (personal_info db) /\ phone_number r = p.
Proof.
  unfold query_first, filter_by_phone. intros H.
  assert (Hin : In r (filter (fun r => str_eqb (phone_number r) p)
                             (personal_info db))).
  { destruct (filter _ (personal_info db)) as [|x l]; [discriminate|].
    injection H as ->. now left. }
  apply filter_In in Hin. destruct Hin as [Hin Hp].
  split; [assumption|]. now apply str_eqb_eq.
Qed.

(** After the row of [r] was rewritten as [r'], which keeps the key
    and the phone number, the lookup finds [r']. *)
Lemma query_first_commit_update db p r r' :
  query_first db p = Some r ->
  id r' = id r -> phone_number r' = p ->
  query_first (commit_update db r') p = Some r'.
Proof.
  unfold query_first, commit_update, filter_by_phone. cbn [personal_info].
  intros H Hid Hp.
  induction (personal_info db) as [|x l IH]; [discriminate|].
  cbn [map filter] in *.
  destruct (Nat.eqb (id x) (id r')) eqn:Ex.
  - rewrite Hp, str_eqb_refl. reflexivity.
  - destruct (str_eqb (phone_number x) p) eqn:Ep.
    + cbn [hd_error] in H. injection H as ->.
      rewrite Hid, Nat.eqb_refl in Ex. discriminate.
    + now apply IH.
Qed.

Lemma primary_key_inj (l : list PersonalInfoDB) x r :
  NoDup (map id l) -> In x l -> In r l -> id x = id r -> x = r.
Proof.
  induction l as [|y l IH]; intros Hnd Hx Hr Hid; [contradiction|].
  cbn [map] in Hnd. inversion Hnd as [|? ? Hnotin Hnd']. subst.
  destruct Hx as [->|Hx], Hr as [->|Hr]; try reflexivity.
  - exfalso. apply Hnotin. rewrite Hid. now apply in_map.
  - exfalso. apply Hnotin. rewrite <- Hid. now apply in_map.
  - now apply IH.
Qed.

(** A column that [r'] shares with [r] is the same before and after
    the row of [r] is rewritten as [r']. *)
Lemma commit_update_column {A} (f : PersonalInfoDB -> A) db r r' :
  primary_key db -> In r (personal_info db) ->
  id r' = id r -> f r' = f r ->
  map f (personal_info (commit_update db r')) = map f (personal_info db).
Proof.
  unfold primary_key, commit_update. cbn [personal_info].
  intros Hnd Hr Hid Hf. rewrite map_map. apply map_ext_in.
  intros x Hx. destruct (Nat.eqb (id x) (id r')) eqn:Ex; [|reflexivity].
  apply Nat.eqb_eq in Ex. rewrite Hid in Ex.
  rewrite (@primary_key_inj _ x r Hnd Hx Hr Ex). assumption.
Qed.





(** C10: for a phone number that has an identity record,
    [get_or_create_personal_info] returns the stored name and leaves
    the name, the email, the phone number and the key of the record
    alone; the stored call identifier changes only when a call
    identifier is supplied that is not empty and differs from the
    stored one, and it then becomes the supplied one.  Nothing else
    in the store changes. *)
Theorem C10_existing_record_keeps_name_and_email
    (db : Session) (p : str) (sid : option str) (r : PersonalInfoDB) :
  query_first db p = Some r ->
  let name := fst (get_or_create_personal_info db p sid) in
  let db' := snd (get_or_create_personal_info db p sid) in
  name = full_name r
  /\ conversations db' = conversations db
  /\ (exists r',
        query_first db' p = Some r'
        /\ full_name r' = full_name r
        /\ email r' = email r
        /\ phone_number r' = phone_number r
        /\ id r' = id r
        /\ (call_sid r' <> call_sid r ->
            opt_truthy sid = true /\ sid <> call_sid r /\ call_sid r' = sid))
  /\ (db' <> db -> opt_truthy sid = true /\ sid <> call_sid r)
  /\ (primary_key db ->
      map full_name (personal_info db') = map full_name (personal_info db)
      /\ map email (personal_info db') = map email (personal_info db)
      /\ map phone_number (personal_info db')
         = map phone_number (personal_info db)
      /\ map id (personal_info db') = map id (personal_info db)).
Proof.
  intros Hq name db'. subst name db'.
  destruct (@query_first_In db p r Hq) as [Hin Hp].
  unfold get_or_create_personal_info. rewrite Hq.
  destruct (opt_truthy sid && negb (opt_str_eqb (call_sid r) sid)) eqn:Es;
    cbn [fst snd commit_update conversations].
  - apply andb_true_iff in Es. destruct Es as [Ts Ds].
    apply negb_true_iff, opt_str_eqb_neq in Ds.
    split; [reflexivity|]. split; [reflexivity|]. split; [|split].
    + exists (set_call_sid r sid).
      split; [now apply query_first_commit_update with (r := r)|].
      cbn [id phone_number call_sid full_name email set_call_sid].
      repeat match goal with |- _ /\ _ => split end;
        try reflexivity.
      intros _. repeat split; [assumption | congruence].
    + intros _. split; [assumption | congruence].
    + intros Hpk. repeat split;
        apply commit_update_column with (r := r);
        (assumption || reflexivity).
  - split; [reflexivity|]. split; [reflexivity|]. split; [|split].
    + exists r. split; [assumption|].
      repeat match goal with |- _ /\ _ => split end;
        try reflexivity; intros; congruence.
    + intros H. congruence.
    + intros _. repeat split.
Qed.

End Gateway.

(* ------------------------------------------------------------------ *)
(** * The call-flow controller *)
(* ------------------------------------------------------------------ *)

Section Controller.

Import telephony.

Lemma clean_number_lacking c fd :
  lacks_caller_number c fd ->
  clean_number c (From fd) = Raise NumberParseException
  \/ clean_number c (From fd) = Ok None.
Proof.
  unfold lacks_caller_number, clean_number.
  destruct (From fd) as [raw|]; [|now right].
  intros [->|Hn]; [now right|].
  destruct (truthy raw); [|now right].
  destruct (phonenumbers_parse c raw) as [n|] eqn:E; [|now left].
  destruct (is_valid_number n) eqn:V; [|now right].
  exfalso. apply Hn. now exists n.
Qed.

(** Reading the request never fails once the form is there; the call
    identifier is the form field, and a caller number that does not
    parse leaves [from_number] at [None]. *)
Lemma parse_twilio_request_ok c request fd :
  form request = Ok fd ->
  exists data,
    parse_twilio_request c request = Ok data
    /\ d_call_sid data = CallSid fd
    /\ (lacks_caller_number c fd -> d_from_number data = None).
Proof.
  intros Hf. unfold parse_twilio_request. rewrite Hf.
  destruct (clean_number c (From fd)) as [f|e] eqn:Ef.
  - destruct (clean_number c (To fd)) as [t|e'];
      (eexists; split; [reflexivity|]; split; [reflexivity|]);
      cbn [d_from_number]; intros Hl;
      destruct (clean_number_lacking c fd Hl); congruence.
  - eexists. split; [reflexivity|]. split; reflexivity.
Qed.

Lemma lacks_call_sid_falsy fd :
  lacks_call_sid fd -> opt_truthy (CallSid fd) = false.
Proof. now intros [-> | ->]. Qed.

(** C9: an inbound request whose form lacks the call identifier, or a
    caller number that parses, is answered by both inbound handlers
    with the fixed markup ["<Response><Say>Error processing
    call.</Say></Response>"], and the store is left as it was. *)
Theorem C9_missing_call_sid_or_caller_writes_nothing
    (c : Collaborators) (request : Request) (fd : FormData) (db : Session) :
  form request = Ok fd ->
  lacks_call_sid fd \/ lacks_caller_number c fd ->
  handle_incoming c request db
  = (Ok (xml_response ERROR_PROCESSING_CALL), db)
  /\ handle_agent_incoming c request db
     = (Ok (xml_response ERROR_PROCESSING_CALL), db).
Proof.
  intros Hf Hlack.
  destruct (parse_twilio_request_ok c request Hf) as (data & Hd & Hsid & Hfrom).
  unfold handle_incoming, handle_agent_incoming, try_except,
    handle_incoming_try, handle_agent_incoming_try, bind, lift, ret.
  rewrite Hd.
  destruct Hlack as [Hl|Hl].
  - rewrite Hsid, (lacks_call_sid_falsy Hl). cbn [negb orb]. now split.
  - rewrite (Hfrom Hl). cbn [opt_truthy negb].
    rewrite !orb_true_r. cbn [orb]. now split.
Qed.

(** ** Every webhook handler answers with markup *)














End Controller.

(* ------------------------------------------------------------------ *)
(** * The session lifecycle *)
(* ------------------------------------------------------------------ *)

Section Lifecycle.

Import openai_services ai_router.

(** A second [stop()] returns normally and changes nothing: neither
    the session nor the log of releases. *)
Lemma stop_twice (l : Live) :
  fst (stop l) = Ok tt
  /\ stop (snd (stop l)) = (Ok tt, snd (stop l)).
Proof.
  unfold stop. destruct l as [[sid phone st h] rel].
  destruct st; cbn; now split.
Qed.

Lemma stop_releases_held (l : Live) :
  state (handler l) <> STOPPED ->
  released (snd (stop l)) = released l ++ held (handler l)
  /\ held (handler (snd (stop l))) = []
  /\ state (handler (snd (stop l))) = STOPPED.
Proof.
  unfold stop. destruct l as [[sid phone st h] rel].
  destruct st; cbn; intros H; [now repeat split .. | contradiction].
Qed.

(** C3: once the handshake is done and the session handler exists,
    the endpoint calls [stop()] on every way out of [start()] (normal
    return, the transport's disconnect, any other failure): once
    after a normal return, twice otherwise, and [stop()] is the last
    call it makes.  The endpoint then returns normally, the session is
    stopped and holds nothing, and every resource the session took was
    released exactly once.  A further [stop()] on any session returns
    normally and changes neither the session nor the releases.  When
    the handshake itself fails there is no session handler and the
    failure propagates. *)
Theorem C3_stop_on_every_exit_and_idempotent
    (run : Run) (sid phone : str) :
  let out := media_stream_endpoint (Ok tt) run sid phone initial in
  fst out = Ok tt
  /\ In stop_called (calls (snd out))
  /\ last (calls (snd out)) accept_called = stop_called
  /\ stop_count (snd out)
     = match outcome run with Ok _ => 1 | Raise _ => 2 end
  /\ (exists l,
        session (snd out) = Some l
        /\ state (handler l) = STOPPED
        /\ held (handler l) = []
        /\ released l = acquired run)
  /\ (forall l : Live,
        fst (stop l) = Ok tt
        /\ stop (snd (stop l)) = (Ok tt, snd (stop l)))
  /\ (forall e,
        media_stream_endpoint (Raise e) run sid phone initial
        = (Raise e, {| session := None; calls := [accept_called] |})).
Proof.
  intros out. subst out.
  assert (Hexit :
    forall o,
      let out := media_stream_endpoint (Ok tt)
                   {| acquired := acquired run; outcome := o |}
                   sid phone initial in
      fst out = Ok tt
      /\ In stop_called (calls (snd out))
      /\ last (calls (snd out)) accept_called = stop_called
      /\ stop_count (snd out) = match o with Ok _ => 1 | Raise _ => 2 end
      /\ (exists l,
            session (snd out) = Some l
            /\ state (handler l) = STOPPED
            /\ held (handler l) = []
            /\ released l = acquired run)).
  { intros [[]|e]; [|destruct e]; cbv;
      (repeat split; [auto 6 | eexists; repeat split]). }
  destruct run as [acq o]. specialize (Hexit o). cbn [acquired outcome] in *.
  destruct Hexit as (H1 & H2 & H3 & H4 & H5).
  repeat match goal with |- _ /\ _ => split end; try assumption.
  - apply stop_twice.
  - intros e. reflexivity.
Qed.

End Lifecycle.

(* ------------------------------------------------------------------ *)
(** * The properties on the sample data *)
(* ------------------------------------------------------------------ *)

Section Runs.

Import prompts crud telephony.


(** A caller with two stored conversations against a store without
    any. *)
Lemma C5_two_calls_run :
  supplied sample.PHONE
  /\ has_conversation sample.two_calls sample.PHONE
  /\ ~ has_conversation sample.empty_db sample.PHONE
  /\ snd (generate_openai_instructions sample.two_calls
            (Some sample.PHONE)) = true
  /\ strict_prefix_of
       (fst (generate_openai_instructions sample.empty_db
               (Some sample.PHONE)))
       (fst (generate_openai_instructions sample.two_calls
               (Some sample.PHONE))).
Proof.
  assert (H1 : supplied sample.PHONE) by (vm_compute; discriminate).
  assert (H2 : has_conversation sample.two_calls sample.PHONE).
  { eexists. split; [left; reflexivity | reflexivity]. }
  assert (H3 : ~ has_conversation sample.empty_db sample.PHONE).
  { intros (c & [] & _). }
  destruct (@C5_returning_caller_extends_base
              sample.two_calls sample.empty_db sample.PHONE H1 H2 H3)
    as (Hret & _ & Hpre & _).
  now repeat split.
Defined.


(** An inbound request without [CallSid], to a store that knows two
    callers. *)
Lemma C9_no_call_sid_run :
  form (sample.request_of sample.no_call_sid) = Ok sample.no_call_sid
  /\ (lacks_call_sid sample.no_call_sid
      \/ lacks_caller_number sample.working sample.no_call_sid)
  /\ handle_incoming sample.working
       (sample.request_of sample.no_call_sid) sample.known
     = (Ok (xml_response ERROR_PROCESSING_CALL), sample.known)
  /\ handle_agent_incoming sample.working
       (sample.request_of sample.no_call_sid) sample.known
     = (Ok (xml_response ERROR_PROCESSING_CALL), sample.known).
Proof.
  assert (H1 : form (sample.request_of sample.no_call_sid)
               = Ok sample.no_call_sid) by reflexivity.
  assert (H2 : lacks_call_sid sample.no_call_sid
               \/ lacks_caller_number sample.working sample.no_call_sid).
  { left. left. reflexivity. }
  split; [exact H1|]. split; [exact H2|].
  exact (@C9_missing_call_sid_or_caller_writes_nothing
           sample.working (sample.request_of sample.no_call_sid)
           sample.no_call_sid sample.known H1 H2).
Defined.

(** A known caller rings again with a new call identifier. *)
Lemma C10_known_caller_run :
  query_first sample.known sample.PHONE = Some sample.alice
  /\ fst (get_or_create_personal_info sample.known sample.PHONE
            (Some sample.SID)) = full_name sample.alice
  /\ exists r',
       query_first
         (snd (get_or_create_personal_info sample.known sample.PHONE
                 (Some sample.SID))) sample.PHONE = Some r'
       /\ full_name r' = full_name sample.alice
       /\ email r' = email sample.alice.
Proof.
  assert (H : query_first sample.known sample.PHONE = Some sample.alice)
    by reflexivity.
  destruct (@C10_existing_record_keeps_name_and_email
              sample.known sample.PHONE (Some sample.SID) sample.alice H)
    as (Hname & _ & (r' & Hq & Hn & He & _) & _).
  split; [exact H|]. split; [exact Hname|].
  exists r'. now repeat split.
Defined.

(** Four calls are stored one after the other; the fetch returns the
    last three, newest first. *)
Example fetch_after_four_calls :
  let sys := BASE_INSTRUCTIONS in
  let db1 := save_conversation sample.empty_db sample.PHONE (lit "a") sys in
  let db2 := save_conversation db1 sample.PHONE (lit "b") sys in
  let db3 := save_conversation db2 sample.PHONE (lit "c") sys in
  let db4 := save_conversation db3 sample.PHONE (lit "d") sys in
  get_past_conversations db4 sample.PHONE
  = [(lit "d", Some sys); (lit "c", Some sys); (lit "b", Some sys)].
Proof. reflexivity. Qed.

(** A first inbound call [CallSid=CA123], [From=+15551234567]: the
    caller gets a record, the greeting is played and the call is
    connected to the stream of that call and caller. *)
Example first_inbound_call :
  handle_incoming sample.working (sample.request_of sample.inbound)
    sample.empty_db
  = (Ok (xml_response
           (twiml.VoiceResponse_str
              [ Play (lit "http://localhost:5050/temp_audio_path/greeting_15551234567.mp3");
                Pause 1;
                Connect
                  [Stream (lit "wss://localhost:5050/media-stream/CA123/+15551234567")] ])),
     {| personal_info :=
          [ {| id := 1; phone_number := sample.PHONE;
               call_sid := Some sample.SID;
               full_name := None; email := None |} ];
        conversations := [] |}).
Proof. now vm_compute. Qed.

End Runs.

(* ------------------------------------------------------------------ *)
(** * The conversation log *)
(* ------------------------------------------------------------------ *)

Section ConversationLog.

Import crud.

Lemma stored_id_below_next (l : list ConversationDB) d :
  In d l -> conv_id d < next_id (map conv_id l).
Proof.
  intros Hin. unfold next_id.
  assert (H : Forall (fun k => k <= list_max (map conv_id l)) (map conv_id l))
    by now apply list_max_le.
  rewrite Forall_forall in H.
  specialize (H (conv_id d) (in_map conv_id l d Hin)). lia.
Qed.

(** A row newer than all the others comes first in the ordering. *)
Lemma order_by_id_desc_newest l c :
  (forall d, In d l -> conv_id d < conv_id c) ->
  order_by_id_desc (l ++ [c]) = c :: order_by_id_desc l.
Proof.
  unfold order_by_id_desc.
  induction l as [|d l IH]; intros Hlt; [reflexivity|].
  cbn [app fold_right]. rewrite IH by (intros; apply Hlt; now right).
  cbn [insert_desc].
  destruct (Nat.leb_spec (conv_id c) (conv_id d)) as [Hle|_]; [|reflexivity].
  specialize (Hlt d (or_introl eq_refl)). lia.
Qed.

Lemma log_of_save_same db p text sysmsg :
  store.log_of (save_conversation db p text sysmsg) p
  = store.log_of db p
    ++ [ {| conv_id := next_id (map conv_id (conversations db));
            conv_phone_number := p; transcript := text;
            system_message := Some sysmsg |} ].
Proof.
  unfold store.log_of, save_conversation. cbn [conversations].
  rewrite filter_app. cbn [filter conv_phone_number].
  now rewrite str_eqb_refl.
Qed.



Lemma log_of_save_other db p q text sysmsg :
  q <> p ->
  store.log_of (save_conversation db p text sysmsg) q = store.log_of db q.
Proof.
  intros Hne. unfold store.log_of, save_conversation. cbn [conversations].
  rewrite filter_app. cbn [filter conv_phone_number].
  assert (E : str_eqb p q = false) by (apply str_eqb_neq; congruence).
  rewrite E. apply app_nil_r.
Qed.

(** X1: the conversation just saved is the first one of the next fetch
    for its phone number, with its transcript and system message; the
    two most recent of the earlier ones follow it. *)
Theorem save_then_fetch_puts_new_call_first
    (db : Session) (p text sysmsg : str) :
  get_past_conversations (save_conversation db p text sysmsg) p
  = (text, Some sysmsg) :: firstn 2 (get_past_conversations db p).
Proof.
  unfold get_past_conversations, get_past_conversations_limit.
  fold (store.log_of (save_conversation db p text sysmsg) p).
  fold (store.log_of db p).
  rewrite firstn_map, firstn_firstn.
  rewrite log_of_save_same, order_by_id_desc_newest.
  - reflexivity.
  - intros d Hd. cbn [conv_id]. apply stored_id_below_next.
    unfold store.log_of in Hd. now apply filter_In in Hd.
Qed.

(** X2: saving a conversation for one phone number changes no fetch for
    another phone number and no identity record, and it removes or
    rewrites no stored conversation. *)
Theorem save_conversation_frame
    (db : Session) (p q text sysmsg : str) :
  let db' := save_conversation db p text sysmsg in
  personal_info db' = personal_info db
  /\ firstn (length (conversations db)) (conversations db')
     = conversations db
  /\ length (conversations db') = S (length (conversations db))
  /\ (q <> p -> get_past_conversations db' q = get_past_conversations db q).
Proof.
  intros db'. subst db'. unfold save_conversation. cbn [personal_info conversations].
  repeat split.
  - rewrite firstn_app, firstn_all, Nat.sub_diag. apply app_nil_r.
  - rewrite length_app. simpl. lia.
  - intros Hne. unfold get_past_conversations, get_past_conversations_limit.
    fold (save_conversation db p text sysmsg).
    fold (store.log_of (save_conversation db p text sysmsg) q).
    fold (store.log_of db q). now rewrite log_of_save_other.
Qed.

Lemma strongly_sorted_app {A} (R : A -> A -> Prop) (a b : list A) :
  StronglySorted R (a ++ b) ->
  StronglySorted R a /\ forall x y, In x a -> In y b -> R x y.
Proof.
  induction a as [|h a IH]; intros Hs; cbn [app] in Hs.
  - split; [constructor | intros x y []].
  - inversion Hs as [|? ? Hs' Hall]. subst.
    destruct (IH Hs') as [Ha Hab]. rewrite Forall_forall in Hall.
    split.
    + constructor; [assumption|]. apply Forall_forall.
      intros x Hx. apply Hall. apply in_or_app. now left.
    + intros x y [<-|Hx] Hy.
      * apply Hall. apply in_or_app. now right.
      * now apply Hab.
Qed.

(** X3: a fetch with a limit returns the transcripts and system
    messages of the most recent conversations stored for the phone
    number, newest first: as many as the limit allows, and every
    conversation of that number left out is no newer than any one
    returned. *)
Theorem fetch_returns_most_recent
    (db : Session) (p : str) (limit : nat) :
  exists fetched rest,
    Permutation (store.log_of db p) (fetched ++ rest)
    /\ get_past_conversations_limit db p limit = map store.as_pair fetched
    /\ length fetched = Nat.min limit (length (store.log_of db p))
    /\ newest_first fetched
    /\ (forall a b, In a fetched -> In b rest -> conv_id b <= conv_id a).
Proof.
  set (sorted := order_by_id_desc (store.log_of db p)).
  exists (firstn limit sorted), (skipn limit sorted).
  assert (Hs : StronglySorted (fun a b => conv_id b <= conv_id a) sorted).
  { apply Sorted_StronglySorted; [|apply order_by_id_desc_sorted].
    intros x y z Hxy Hyz. lia. }
  rewrite <- (firstn_skipn limit sorted) in Hs.
  apply strongly_sorted_app in Hs. destruct Hs as [Hf Hcross].
  repeat split.
  - rewrite firstn_skipn. apply order_by_id_desc_perm.
  - rewrite length_firstn. unfold sorted.
    now rewrite order_by_id_desc_length.
  - now apply StronglySorted_Sorted.
  - intros a b Ha Hb. now apply Hcross.
Qed.

End ConversationLog.

(* ------------------------------------------------------------------ *)
(** * Growth and content of the instructions *)
(* ------------------------------------------------------------------ *)

Section PromptGrowth.

Import prompts crud.

Lemma length_summary_of text : length (summary_of text) <= 503.
Proof.
  unfold summary_of, slice_to.
  destruct (Nat.ltb_spec 500 (length text)) as [Hlt|Hle]; [|lia].
  rewrite length_app, length_firstn.
  change (length (lit "...")) with 3. lia.
Qed.

Lemma length_digest_entry n summary :
  length (digest_entry n summary)
  = 9 + length (str_of_nat n) + length summary.
Proof.
  unfold digest_entry. rewrite !length_app.
  change (length (lit "Call ")) with 5. change (length (lit ":")) with 1.
  change (length LF) with 1. lia.
Qed.

(** A label up to 3 is printed as one digit. *)
Lemma length_small_label n : n <= 3 -> length (str_of_nat n) = 1.
Proof.
  intros H. destruct n as [|[|[|[|n]]]]; try reflexivity. lia.
Qed.

Lemma numbered_entries_bounded n items : forall i,
  n <= 3 ->
  Forall (fun e => length e <= 503 + 10) (digest.numbered n i items).
Proof.
  induction items as [|x items IH]; intros i Hn.
  - constructor.
  - rewrite numbered_cons. constructor; [|now apply IH].
    rewrite length_digest_entry, length_small_label by lia.
    pose proof (length_summary_of (fst x)). lia.
Qed.

Lemma length_concat_bounded (l : list str) b :
  Forall (fun e => length e <= b) l -> length (concat l) <= length l * b.
Proof.
  induction 1 as [|e l He _ IH]; cbn; [lia|].
  rewrite length_app. lia.
Qed.

Lemma fetch_at_most_three db p : length (get_past_conversations db p) <= 3.
Proof.
  unfold get_past_conversations. rewrite get_past_conversations_length. lia.
Qed.

Lemma length_entries_concat past :
  length past <= 3 ->
  length (concat (digest.entries past)) <= length past * (503 + 10).
Proof.
  intros H3. unfold digest.entries.
  eapply Nat.le_trans.
  - apply length_concat_bounded with (b := 503 + 10).
    now apply numbered_entries_bounded.
  - rewrite numbered_length, length_rev. lia.
Qed.

(** X4: whatever the store holds, the instructions are at most the
    persona, the returning-caller notice and a digest of three entries
    of 513 characters between its two delimiter lines: 2299 characters
    in all. *)
Theorem instructions_length_is_bounded (db : Session) (phone : option str) :
  length (fst (generate_openai_instructions db phone))
  <= length BASE_INSTRUCTIONS
     + length (LF ++ RETURNING_CALLER_INSTRUCTIONS)
     + store.DIGEST_BOUND
  /\ length BASE_INSTRUCTIONS
     + length (LF ++ RETURNING_CALLER_INSTRUCTIONS)
     + store.DIGEST_BOUND = 2299.
Proof.
  split; [|reflexivity].
  destruct phone as [[|x p]|];
    [rewrite generate_empty_phone; cbn [fst]; lia | |
     rewrite generate_without_phone; cbn [fst]; lia].
  destruct (get_past_conversations db (x :: p)) as [|c past] eqn:E.
  - rewrite (generate_without_history db _ E). cbn [fst]. lia.
  - rewrite generate_with_history; [|reflexivity|congruence].
    cbn [fst]. rewrite E, !length_app.
    pose proof (fetch_at_most_three db (x :: p)) as H3. rewrite E in H3.
    pose proof (@length_entries_concat (c :: past) H3) as Hc.
    unfold store.DIGEST_BOUND. nia.
Qed.

(** X5: [is_returning] is [True] exactly when a phone number is
    supplied and the store holds a conversation for it. *)
Theorem is_returning_iff_known_history (db : Session) (phone : option str) :
  snd (generate_openai_instructions db phone) = true
  <-> exists p, phone = Some p /\ supplied p /\ has_conversation db p.
Proof.
  split.
  - destruct phone as [[|x p]|];
      [rewrite generate_empty_phone; discriminate | |
       rewrite generate_without_phone; discriminate].
    destruct (get_past_conversations db (x :: p)) as [|c past] eqn:E.
    + rewrite (generate_without_history db _ E). discriminate.
    + intros _. exists (x :: p). repeat split; [discriminate|].
      apply past_has_conversation. congruence.
  - intros (p & -> & Hp & Hc).
    apply truthy_nonempty in Hp. apply has_conversation_past in Hc.
    now rewrite (@generate_with_history db p Hp Hc).
Qed.



End PromptGrowth.

(* ------------------------------------------------------------------ *)
(** * Identity records over several calls *)
(* ------------------------------------------------------------------ *)

Section IdentityRecords.

Import crud.

Lemma stored_key_below_next (l : list PersonalInfoDB) r :
  In r l -> id r < next_id (map id l).
Proof.
  intros Hin. unfold next_id.
  assert (H : Forall (fun k => k <= list_max (map id l)) (map id l))
    by now apply list_max_le.
  rewrite Forall_forall in H.
  specialize (H (id r) (in_map id l r Hin)). lia.
Qed.

Lemma next_id_fresh (l : list PersonalInfoDB) :
  ~ In (next_id (map id l)) (map id l).
Proof.
  intros Hin. apply in_map_iff in Hin. destruct Hin as (r & E & Hr).
  pose proof (stored_key_below_next l r Hr). lia.
Qed.

Lemma query_first_after_add db p sid :
  unknown_caller db p ->
  query_first (commit_add_personal_info db p sid) p
  = Some {| id := next_id (map id (personal_info db));
            phone_number := p; call_sid := sid;
            full_name := None; email := None |}.
Proof.
  intros Hnew. unfold query_first, commit_add_personal_info, filter_by_phone.
  cbn [personal_info]. rewrite filter_app.
  fold (filter_by_phone p (personal_info db)).
  rewrite (@unknown_caller_filter db p Hnew).
  cbn [filter phone_number app]. now rewrite str_eqb_refl.
Qed.

Lemma opt_str_eqb_refl (o : option str) : opt_str_eqb o o = true.
Proof. now apply opt_str_eqb_eq. Qed.

(** X7: resolving the same caller with the same call identifier a
    second time returns the same name and writes nothing more. *)
Theorem get_or_create_twice_is_once
    (db : Session) (p : str) (sid : option str) :
  get_or_create_personal_info
    (snd (get_or_create_personal_info db p sid)) p sid
  = get_or_create_personal_info db p sid.
Proof.
  unfold get_or_create_personal_info at 2 3.
  destruct (query_first db p) as [r|] eqn:Hq.
  - destruct (@query_first_In db p r Hq) as [Hin Hp].
    destruct (opt_truthy sid && negb (opt_str_eqb (call_sid r) sid)) eqn:Es;
      cbn [snd].
    + unfold get_or_create_personal_info.
      rewrite (@query_first_commit_update db p r (set_call_sid r sid) Hq
                 eq_refl Hp).
      cbn [call_sid set_call_sid full_name].
      rewrite opt_str_eqb_refl. cbn [negb]. now rewrite andb_false_r.
    + unfold get_or_create_personal_info. now rewrite Hq, Es.
  - cbn [snd]. unfold get_or_create_personal_info.
    apply query_first_None in Hq.
    rewrite (query_first_after_add sid Hq). cbn [call_sid full_name].
    rewrite opt_str_eqb_refl. cbn [negb]. now rewrite andb_false_r.
Qed.

(** What [update_personal_info] leaves in the record it finds: each
    supplied, non-empty value, and the stored value otherwise. *)
Lemma update_personal_info_record db p name mail r :
  query_first db p = Some r ->
  exists r',
    query_first (snd (update_personal_info db p name mail)) p = Some r'
    /\ id r' = id r /\ phone_number r' = phone_number r
    /\ call_sid r' = call_sid r
    /\ full_name r' = (if opt_truthy name then name else full_name r)
    /\ email r' = (if opt_truthy mail then mail else email r)
    /\ (snd (update_personal_info db p name mail) = db
        \/ snd (update_personal_info db p name mail) = commit_update db r').
Proof.
  intros Hq. destruct (@query_first_In db p r Hq) as [Hin Hp].
  unfold update_personal_info. rewrite Hq.
  destruct (opt_truthy name) eqn:Tn, (opt_truthy mail) eqn:Tm;
    cbn [andb];
    try destruct (opt_str_eqb (full_name r) name) eqn:En;
    cbn [negb email set_full_name];
    try destruct (opt_str_eqb (email r) mail) eqn:Em;
    cbn [negb fst snd];
    try apply opt_str_eqb_eq in En; try apply opt_str_eqb_eq in Em;
    eexists;
    (split;
     [ first [ eassumption
             | apply query_first_commit_update with (r := r);
               [assumption | reflexivity | assumption] ]
     | cbn [id phone_number call_sid full_name email set_full_name set_email];
       repeat split; first [assumption | reflexivity | now left | now right
                           | (symmetry; assumption) ] ]).
Qed.

Lemma commit_add_keeps_keys db p sid :
  unknown_caller db p ->
  primary_key db -> store.unique_phones db ->
  primary_key (commit_add_personal_info db p sid)
  /\ store.unique_phones (commit_add_personal_info db p sid).
Proof.
  unfold primary_key, store.unique_phones, commit_add_personal_info.
  cbn [personal_info]. intros Hnew Hk Hp. rewrite !map_app. cbn [map].
  split; apply NoDup_app; try assumption;
    try (constructor; [intros [] | constructor]).
  - intros a Ha [<-|[]]. now apply (next_id_fresh (personal_info db)).
  - intros a Ha [<-|[]]. apply in_map_iff in Ha.
    destruct Ha as (r & E & Hr). now apply (Hnew r).
Qed.

Lemma commit_update_keeps_keys db r r' :
  primary_key db -> store.unique_phones db ->
  In r (personal_info db) ->
  id r' = id r -> phone_number r' = phone_number r ->
  primary_key (commit_update db r')
  /\ store.unique_phones (commit_update db r').
Proof.
  intros Hk Hp Hin Hid Hph. unfold primary_key, store.unique_phones.
  rewrite (@commit_update_column _ id db r r' Hk Hin Hid Hid).
  now rewrite (@commit_update_column _ phone_number db r r' Hk Hin Hid Hph).
Qed.

(** X8: the two writes of the identity table keep its keys and its
    phone numbers unique: a table without duplicates has none after
    [get_or_create_personal_info] or [update_personal_info]. *)
Theorem identity_writes_keep_uniqueness (db : Session) :
  primary_key db -> store.unique_phones db ->
  (forall p sid,
     primary_key (snd (get_or_create_personal_info db p sid))
     /\ store.unique_phones (snd (get_or_create_personal_info db p sid)))
  /\ (forall p name mail,
        primary_key (snd (update_personal_info db p name mail))
        /\ store.unique_phones (snd (update_personal_info db p name mail))).
Proof.
  intros Hk Hp. split.
  - intros p sid. unfold get_or_create_personal_info.
    destruct (query_first db p) as [r|] eqn:Hq.
    + destruct (@query_first_In db p r Hq) as [Hin _].
      destruct (opt_truthy sid && negb (opt_str_eqb (call_sid r) sid));
        cbn [snd]; [|now split].
      now apply commit_update_keeps_keys with (r := r).
    + cbn [snd]. apply query_first_None in Hq.
      now apply commit_add_keeps_keys.
  - intros p name mail.
    destruct (query_first db p) as [r|] eqn:Hq.
    + destruct (@query_first_In db p r Hq) as [Hin _].
      destruct (@update_personal_info_record db p name mail r Hq)
        as (r' & _ & Hid & Hph & _ & _ & _ & [-> | ->]); [now split|].
      now apply commit_update_keeps_keys with (r := r).
    + unfold update_personal_info. rewrite Hq. now split.
Qed.




(** X10: a name stored by [update_personal_info] is the name that the
    next identity resolution of that phone number returns; when no
    name (or an empty one) was supplied, the resolution returns the
    name stored before. *)
Theorem backfilled_name_is_returned
    (db : Session) (p : str) (name mail sid : option str)
    (r : PersonalInfoDB) :
  query_first db p = Some r ->
  fst (get_or_create_personal_info
         (snd (update_personal_info db p name mail)) p sid)
  = (if opt_truthy name then name else full_name r).
Proof.
  intros Hq.
  destruct (@update_personal_info_record db p name mail r Hq)
    as (r' & Hq' & _ & _ & _ & Hn & _).
  unfold get_or_create_personal_info. rewrite Hq'.
  now destruct (opt_truthy sid && negb (opt_str_eqb (call_sid r') sid)).
Qed.

(** X11: repeating an update with the same values changes nothing and
    returns [False]. *)
Theorem update_twice_is_once
    (db : Session) (p : str) (name mail : option str) :
  update_personal_info (snd (update_personal_info db p name mail)) p name mail
  = (false, snd (update_personal_info db p name mail)).
Proof.
  destruct (query_first db p) as [r|] eqn:Hq.
  - destruct (@update_personal_info_record db p name mail r Hq)
      as (r' & Hq' & _ & _ & _ & Hn & Hm & _).
    remember (snd (update_personal_info db p name mail)) as db1.
    unfold update_personal_info. rewrite Hq'.
    assert (En : opt_truthy name && negb (opt_str_eqb (full_name r') name)
                 = false).
    { destruct (opt_truthy name); [|reflexivity].
      rewrite Hn, opt_str_eqb_refl. reflexivity. }
    rewrite En.
    assert (Em : opt_truthy mail && negb (opt_str_eqb (email r') mail)
                 = false).
    { destruct (opt_truthy mail); [|reflexivity].
      rewrite Hm, opt_str_eqb_refl. reflexivity. }
    now rewrite Em.
  - unfold update_personal_info at 2 3. rewrite Hq. cbn [snd].
    unfold update_personal_info. now rewrite Hq.
Qed.

End IdentityRecords.

(* ------------------------------------------------------------------ *)
(** * The paths through the webhook handlers *)
(* ------------------------------------------------------------------ *)

Section ControllerPaths.

Import telephony.

Lemma clean_number_valid c (raw : str) n :
  raw <> [] ->
  phonenumbers_parse c raw = Some n -> is_valid_number n = true ->
  clean_number c (Some raw) = Ok (Some (format_E164 n)).
Proof.
  intros Hraw Hparse Hvalid. unfold clean_number.
  apply truthy_nonempty in Hraw. now rewrite Hraw, Hparse, Hvalid.
Qed.

Lemma clean_number_raises c (raw : str) :
  raw <> [] -> phonenumbers_parse c raw = None ->
  clean_number c (Some raw) = Raise NumberParseException.
Proof.
  intros Hraw Hparse. unfold clean_number.
  apply truthy_nonempty in Hraw. now rewrite Hraw, Hparse.
Qed.

(** A caller number that parses is kept whatever happens to [To]. *)
Lemma parse_twilio_request_caller c request fd (raw : str) n :
  form request = Ok fd ->
  From fd = Some raw -> raw <> [] ->
  phonenumbers_parse c raw = Some n -> is_valid_number n = true ->
  exists to_number,
    parse_twilio_request c request
    = Ok {| d_call_sid := CallSid fd;
            d_from_number := Some (format_E164 n);
            d_to_number := to_number;
            d_speech_result := SpeechResult fd |}.
Proof.
  intros Hf Hfrom Hraw Hparse Hvalid. unfold parse_twilio_request.
  rewrite Hf. cbv zeta.
  rewrite Hfrom, (@clean_number_valid c raw n Hraw Hparse Hvalid).
  destruct (clean_number c (To fd)); eexists; reflexivity.
Qed.

Lemma lstrip_greeting_path cleaned :
  lstrip_char 47%N
    (lit "/" ++ greeting_service.TEMP_AUDIO_DIR_name ++ lit "/"
       ++ lit "greeting_" ++ cleaned ++ lit ".mp3")
  = lit "temp_audio_path/greeting_" ++ cleaned ++ lit ".mp3".
Proof. reflexivity. Qed.

(** X12: an inbound call with a call identifier and a caller number
    that parses, served by working collaborators, resolves the caller
    first and then answers with three verbs: play the greeting file
    named after the caller's number without its [+], pause one second,
    connect the stream whose address ends in the call identifier and
    the caller's number.  The store is the one identity resolution
    left. *)
Theorem inbound_call_greets_and_connects
    (c : Collaborators) (request : Request) (fd : FormData)
    (db : Session) (sid raw host : str) (n : PhoneNumber) :
  form request = Ok fd ->
  CallSid fd = Some sid -> sid <> [] ->
  From fd = Some raw -> raw <> [] ->
  phonenumbers_parse c raw = Some n -> is_valid_number n = true ->
  format_E164 n <> [] ->
  storage_failure c = None ->
  (forall text, openai_speech c text = Ok tt) ->
  twilio_service.base_host c = Ok host ->
  let phone := format_E164 n in
  handle_incoming c request db
  = (Ok (xml_response
           (twiml.VoiceResponse_str
              [ Play (base_url request ++ lit "temp_audio_path/greeting_"
                        ++ remove_char 43%N phone ++ lit ".mp3");
                Pause 1;
                Connect
                  [Stream (lit "wss://" ++ host ++ lit "/media-stream/"
                             ++ sid ++ lit "/" ++ phone)] ])),
     snd (crud.get_or_create_personal_info db phone (Some sid))).
Proof.
  intros Hf Hsid Hsid' Hfrom Hraw Hparse Hvalid Hphone Hst Hsp Hh phone.
  destruct (@parse_twilio_request_caller c request fd raw n
              Hf Hfrom Hraw Hparse Hvalid)
    as [to_number Hd].
  apply truthy_nonempty in Hsid'. apply truthy_nonempty in Hphone.
  unfold handle_incoming, try_except, handle_incoming_try, bind, lift, ret.
  rewrite Hd. cbn [d_call_sid d_from_number opt_truthy].
  rewrite Hsid. cbn [opt_truthy]. rewrite Hsid', Hphone. cbn [negb orb].
  unfold greet_and_connect, bind, lift, ret,
    crud_get_or_create_personal_info.
  rewrite Hst. fold phone.
  destruct (crud.get_or_create_personal_info db phone (Some sid))
    as [name db'].
  unfold greeting_service.get_greeting_url. rewrite Hsp.
  rewrite lstrip_greeting_path.
  unfold twilio_service.create_greeting_and_connect_stream_twiml.
  rewrite Hh. cbn [snd].
  destruct (base_url request); reflexivity.
Qed.

(** X13: when the greeting cannot be produced, an inbound call that
    passed validation is answered with the internal-error markup, and
    the store keeps what identity resolution wrote before the failure:
    a first-time caller has a record although the call was refused. *)
Theorem greeting_failure_keeps_identity_record
    (c : Collaborators) (request : Request) (fd : FormData)
    (db : Session) (sid raw : str) (n : PhoneNumber) (e : exn) :
  form request = Ok fd ->
  CallSid fd = Some sid -> sid <> [] ->
  From fd = Some raw -> raw <> [] ->
  phonenumbers_parse c raw = Some n -> is_valid_number n = true ->
  format_E164 n <> [] ->
  storage_failure c = None ->
  (forall text, openai_speech c text = Raise e) ->
  let phone := format_E164 n in
  let db' := snd (crud.get_or_create_personal_info db phone (Some sid)) in
  handle_incoming c request db = (Ok (xml_response INTERNAL_ERROR), db')
  /\ (unknown_caller db phone ->
      exists r, crud.query_first db' phone = Some r
                /\ call_sid r = Some sid).
Proof.
  intros Hf Hsid Hsid' Hfrom Hraw Hparse Hvalid Hphone Hst Hsp phone db'.
  subst db'.
  destruct (@parse_twilio_request_caller c request fd raw n
              Hf Hfrom Hraw Hparse Hvalid)
    as [to_number Hd].
  apply truthy_nonempty in Hsid'. apply truthy_nonempty in Hphone.
  split.
  - unfold handle_incoming, try_except, handle_incoming_try, bind, lift, ret.
    rewrite Hd. cbn [d_call_sid d_from_number opt_truthy].
    rewrite Hsid. cbn [opt_truthy]. rewrite Hsid', Hphone. cbn [negb orb].
    unfold greet_and_connect, bind, lift, ret,
      crud_get_or_create_personal_info.
    rewrite Hst. fold phone.
    destruct (crud.get_or_create_personal_info db phone (Some sid))
      as [name db'].
    unfold greeting_service.get_greeting_url. now rewrite Hsp.
  - intros Hnew. unfold crud.get_or_create_personal_info.
    apply query_first_None in Hnew. rewrite Hnew. cbn [snd].
    apply query_first_None in Hnew.
    rewrite (query_first_after_add (Some sid) Hnew).
    eexists. split; reflexivity.
Qed.

(** X14: the handler of the agent line differs from the handler of the
    general line in one thing only: it refuses, with the error markup
    and without a write, a request whose dialled number is missing or
    does not parse.  With a dialled number that parses and a readable
    caller number, the two handlers return the same response and leave
    the same store. *)
Theorem agent_line_matches_general_line
    (c : Collaborators) (request : Request) (db : Session) :
  (handle_agent_incoming c request db = handle_incoming c request db
   \/ handle_agent_incoming c request db
      = (Ok (xml_response ERROR_PROCESSING_CALL), db))
  /\ (forall fd (raw : str) n,
        form request = Ok fd ->
        To fd = Some raw -> raw <> [] ->
        phonenumbers_parse c raw = Some n -> is_valid_number n = true ->
        format_E164 n <> [] ->
        clean_number c (From fd) <> Raise NumberParseException ->
        handle_agent_incoming c request db = handle_incoming c request db).
Proof.
  split.
  - unfold handle_agent_incoming, handle_incoming, try_except,
      handle_agent_incoming_try, handle_incoming_try, bind, lift, ret.
    destruct (parse_twilio_request c request) as [data|e]; [|now left].
    destruct (opt_truthy (d_to_number data)); cbn [negb].
    + left. now rewrite orb_false_r.
    + right. now rewrite orb_true_r.
  - intros fd raw n Hf Hto Hraw Hparse Hvalid Hfmt Hfrom.
    unfold handle_agent_incoming, handle_incoming, try_except,
      handle_agent_incoming_try, handle_incoming_try, bind, lift, ret,
      parse_twilio_request.
    rewrite Hf. cbv zeta.
    destruct (clean_number c (From fd)) as [f|e] eqn:Ef.
    + rewrite Hto, (@clean_number_valid c raw n Hraw Hparse Hvalid).
      cbn [d_to_number d_call_sid d_from_number opt_truthy].
      apply truthy_nonempty in Hfmt. rewrite Hfmt. cbn [negb].
      now rewrite orb_false_r.
    + exfalso. apply Hfrom. unfold clean_number in Ef.
      destruct (From fd) as [s|]; [|discriminate].
      destruct (truthy s); [|discriminate].
      destruct (phonenumbers_parse c s) as [m|];
        [destruct (is_valid_number m); discriminate|].
      now injection Ef as <-.
Qed.

(** X15: when the caller number of a request makes the parser raise,
    the dialled number is never parsed.  The handler of connected
    outbound calls, which needs only the dialled number, then hangs up
    whatever the request says in [CallSid] and [To]. *)
Theorem unparsable_caller_blocks_dialled_number
    (c : Collaborators) (request : Request) (fd : FormData)
    (raw : str) (db : Session) :
  form request = Ok fd ->
  From fd = Some raw -> raw <> [] ->
  phonenumbers_parse c raw = None ->
  parse_twilio_request c request
  = Ok {| d_call_sid := CallSid fd; d_from_number := None;
          d_to_number := None; d_speech_result := SpeechResult fd |}
  /\ handle_outgoing_handler c request db = (Ok (xml_response HANGUP), db).
Proof.
  intros Hf Hfrom Hraw Hparse.
  assert (Hd : parse_twilio_request c request
               = Ok {| d_call_sid := CallSid fd; d_from_number := None;
                       d_to_number := None;
                       d_speech_result := SpeechResult fd |}).
  { unfold parse_twilio_request. rewrite Hf. cbv zeta.
    now rewrite Hfrom, (@clean_number_raises c raw Hraw Hparse). }
  split; [exact Hd|].
  unfold handle_outgoing_handler, try_except, handle_outgoing_handler_try,
    bind, lift, ret.
  rewrite Hd. cbn [d_to_number opt_truthy negb]. now rewrite orb_true_r.
Qed.

(** X16: the handler of connected outbound calls never writes to the
    store, and its response is one of two: the hang-up markup, or a
    spoken line followed by the connection of the stream whose address
    ends in the call identifier and the dialled number. *)
Theorem outbound_handler_never_writes
    (c : Collaborators) (request : Request) (db : Session) :
  exists resp,
    handle_outgoing_handler c request db = (Ok resp, db)
    /\ (resp = xml_response HANGUP
        \/ exists (sid to_number host : str),
             sid <> [] /\ to_number <> []
             /\ twilio_service.base_host c = Ok host
             /\ resp
                = xml_response
                    (twiml.VoiceResponse_str
                       [ Say (lit "Hello! This is Alex from Super Truck AI.");
                         Connect
                           [Stream (lit "wss://" ++ host
                                      ++ lit "/media-stream/" ++ sid
                                      ++ lit "/" ++ to_number)] ])).
Proof.
  unfold handle_outgoing_handler, try_except, handle_outgoing_handler_try,
    bind, lift, ret.
  destruct (parse_twilio_request c request) as [data|e];
    [|eexists; split; [reflexivity | now left]].
  destruct (d_call_sid data) as [sid|], (d_to_number data) as [to_number|];
    cbn [opt_truthy negb orb];
    try (rewrite ?orb_true_r; eexists; split; [reflexivity | now left]).
  destruct (truthy sid) eqn:Ts, (truthy to_number) eqn:Tt; cbn [negb orb];
    try (eexists; split; [reflexivity | now left]).
  unfold twilio_service.create_outgoing_connect_stream_twiml.
  destruct (twilio_service.base_host c) as [host|e] eqn:Eh;
    [|eexists; split; [reflexivity | now left]].
  eexists. split; [reflexivity|]. right.
  exists sid, to_number, host.
  apply truthy_nonempty in Ts. apply truthy_nonempty in Tt.
  now repeat split.
Qed.

(** The store an inbound handler leaves is the one it was given or the
    one the shared steps leave. *)
Lemma handle_incoming_store c request db :
  snd (handle_incoming c request db) = db
  \/ exists sid phone,
       truthy sid = true /\ truthy phone = true
       /\ snd (handle_incoming c request db)
          = snd (greet_and_connect c request sid phone db).
Proof.
  unfold handle_incoming, handle_incoming_try.
  set (g := greet_and_connect c request).
  unfold try_except, bind, lift, ret.
  destruct (parse_twilio_request c request) as [data|e]; [|now left].
  destruct (d_call_sid data) as [sid|], (d_from_number data) as [phone|];
    cbn [opt_truthy negb orb]; rewrite ?orb_true_r; try now left.
  destruct (truthy sid) eqn:Ts, (truthy phone) eqn:Tp; cbn [negb orb];
    try now left.
  right. exists sid, phone.
  destruct (g sid phone db) as [[a|e] s']; now repeat split.
Qed.

Lemma handle_agent_incoming_store c request db :
  snd (handle_agent_incoming c request db) = db
  \/ exists sid phone,
       truthy sid = true /\ truthy phone = true
       /\ snd (handle_agent_incoming c request db)
          = snd (greet_and_connect c request sid phone db).
Proof.
  unfold handle_agent_incoming, handle_agent_incoming_try.
  set (g := greet_and_connect c request).
  unfold try_except, bind, lift, ret.
  destruct (parse_twilio_request c request) as [data|e]; [|now left].
  destruct (opt_truthy (d_to_number data)); cbn [negb];
    rewrite ?orb_true_r, ?orb_false_r; try now left.
  destruct (d_call_sid data) as [sid|], (d_from_number data) as [phone|];
    cbn [opt_truthy negb orb]; rewrite ?orb_true_r; try now left.
  destruct (truthy sid) eqn:Ts, (truthy phone) eqn:Tp; cbn [negb orb];
    try now left.
  right. exists sid, phone.
  destruct (g sid phone db) as [[a|e] s']; now repeat split.
Qed.

(** The shared steps leave the store untouched (the storage engine
    failed) or as identity resolution left it. *)
Lemma greet_and_connect_store c request sid phone db :
  snd (greet_and_connect c request sid phone db) = db
  \/ snd (greet_and_connect c request sid phone db)
     = snd (crud.get_or_create_personal_info db phone (Some sid)).
Proof.
  unfold greet_and_connect, bind, lift, ret, crud_get_or_create_personal_info.
  destruct (storage_failure c) as [e|]; [now left|]. right.
  destruct (crud.get_or_create_personal_info db phone (Some sid))
    as [name db'].
  destruct (greeting_service.get_greeting_url c name _); [|reflexivity].
  now destruct (twilio_service.create_greeting_and_connect_stream_twiml
                  _ _ _ _).
Qed.

Lemma get_or_create_keeps_conversations db phone sid :
  conversations (snd (crud.get_or_create_personal_info db phone sid))
  = conversations db.
Proof.
  unfold crud.get_or_create_personal_info.
  destruct (crud.query_first db phone) as [r|]; [|reflexivity].
  now destruct (opt_truthy sid && negb (opt_str_eqb (call_sid r) sid)).
Qed.

(** X17: the only thing an inbound handler ever writes is the identity
    resolution of the caller: after any request the store is either
    untouched or the one [get_or_create_personal_info] produces for a
    non-empty caller number and call identifier; the conversation log
    is never changed. *)
Theorem inbound_handlers_write_identity_only
    (c : Collaborators) (request : Request) (db : Session) :
  let written (db' : Session) :=
    (db' = db
     \/ exists (phone sid : str),
          phone <> [] /\ sid <> []
          /\ db' = snd (crud.get_or_create_personal_info db phone (Some sid)))
    /\ conversations db' = conversations db in
  written (snd (handle_incoming c request db))
  /\ written (snd (handle_agent_incoming c request db)).
Proof.
  intros written.
  assert (Hw : forall db',
            (db' = db
             \/ exists sid phone,
                  truthy sid = true /\ truthy phone = true
                  /\ db' = snd (greet_and_connect c request sid phone db)) ->
            written db').
  { intros db' [->|(sid & phone & Ts & Tp & ->)];
      [split; [now left | reflexivity]|].
    destruct (greet_and_connect_store c request sid phone db) as [->| ->];
      [split; [now left | reflexivity]|].
    split; [|apply get_or_create_keeps_conversations].
    right. exists phone, sid.
    apply truthy_nonempty in Ts. apply truthy_nonempty in Tp.
    now repeat split. }
  split; apply Hw.
  - apply handle_incoming_store.
  - apply handle_agent_incoming_store.
Qed.

End ControllerPaths.

(* ------------------------------------------------------------------ *)
(** * Outbound calls and number purchase *)
(* ------------------------------------------------------------------ *)

Section RestCalls.

Import rest.

(** X18: a destination that does not start with [+] (the empty one
    included) is refused with status 500 and the text of the
    validation error, and no request reaches the REST client. *)
Theorem malformed_destination_places_no_call
    (t : TwilioClient) (c : Collaborators) (to_number : str)
    (log : list request) :
  startswith (lit "+") to_number = false ->
  initiate_outgoing_call t c to_number log
  = (HTTPException 500
       (lit "Failed to initiate call: Invalid 'to_number' format. Must be E.164."),
     log).
Proof.
  intros H. unfold initiate_outgoing_call. rewrite H.
  now rewrite orb_true_r.
Qed.

(** X19: a destination that starts with [+] leads to exactly one
    request, a call from the configured number to that destination
    with the webhook of connected outbound calls; the endpoint answers
    with the call identifier the client returned, or with status 500
    and the text of the client's exception. *)
Theorem wellformed_destination_places_one_call
    (t : TwilioClient) (c : Collaborators) (to_number : str)
    (log : list request) :
  startswith (lit "+") to_number = true ->
  let url := BASE_URL c ++ lit "/telephony/outgoing-call-handler" in
  let from_ := TWILIO_PHONE_NUMBER t in
  snd (initiate_outgoing_call t c to_number log)
  = log ++ [calls_create to_number from_ url]
  /\ fst (initiate_outgoing_call t c to_number log)
     = match on_calls_create t to_number from_ url with
       | Returned call_sid =>
           Json (lit "success") (lit "Outgoing call initiated.") call_sid
       | Raised e =>
           HTTPException 500 (lit "Failed to initiate call: " ++ str_of e)
       end.
Proof.
  intros H url from_. subst url from_.
  unfold initiate_outgoing_call, make_twilio_outgoing_call. rewrite H.
  assert (T : truthy to_number = true).
  { destruct to_number; [discriminate H | reflexivity]. }
  rewrite T. cbn [negb orb].
  now destruct (on_calls_create t to_number (TWILIO_PHONE_NUMBER t) _).
Qed.

(** X20: [buy_twilio_number] never raises.  It searches once, with a
    limit of one number.  It returns a number only after exactly one
    purchase, that of the first number found, and the number returned
    is the one the purchase reported; when the search fails or finds
    nothing it returns [None] without attempting a purchase. *)
Theorem buy_number_buys_first_found_or_nothing
    (t : TwilioClient) (area_code : nat) (log : list request) :
  exists bought log',
    buy_twilio_number t area_code log = (Returned bought, log')
    /\ (log' = log ++ [available_local_list area_code 1]
        \/ exists first rest,
             on_available_local_list t area_code 1 = Returned (first :: rest)
             /\ log' = log ++ [available_local_list area_code 1]
                           ++ [incoming_create first])
    /\ (forall n, bought = Some n ->
          exists first rest,
            on_available_local_list t area_code 1 = Returned (first :: rest)
            /\ on_incoming_create t first = Returned n
            /\ log' = log ++ [available_local_list area_code 1]
                          ++ [incoming_create first])
    /\ ((on_available_local_list t area_code 1 = Returned []
         \/ exists e, on_available_local_list t area_code 1 = Raised e) ->
        bought = None /\ log' = log ++ [available_local_list area_code 1]).
Proof.
  unfold buy_twilio_number.
  destruct (on_available_local_list t area_code 1) as [[|first rest]|e]
    eqn:Ea.
  - eexists _, _. split; [reflexivity|]. split; [now left|].
    split; [discriminate | now split].
  - destruct (on_incoming_create t first) as [n|e] eqn:Eb;
      eexists _, _; (split; [reflexivity|]);
      (split; [right; exists first, rest; split;
                 [reflexivity | now rewrite <- app_assoc]|]);
      (split; [|intros [H|[x H]]; discriminate H]).
    + intros m Hm. injection Hm as <-. exists first, rest.
      repeat split; [assumption | now rewrite <- app_assoc].
    + discriminate.
  - eexists _, _. split; [reflexivity|]. split; [now left|].
    split; [discriminate | now split].
Qed.

End RestCalls.

(* ------------------------------------------------------------------ *)
(** * The lifetime of a database session *)
(* ------------------------------------------------------------------ *)

Section SessionLifetime.

Import session.

(** X21: [DatabaseSession] closes the session exactly once and last,
    whatever the block, the commit and the rollback do.  It commits
    exactly when the block returned normally, and rolls back exactly
    when the block or the commit raised.  It returns a value only when
    block, commit and close all succeeded; an exception of the block
    comes out unchanged when rollback and close succeed. *)
Theorem DatabaseSession_commits_or_rolls_back_then_closes
    (A : Type) (e : Engine) (block : M (list op) A) (log : list op) :
  let ran := block (log ++ [SessionLocal]) in
  let out := DatabaseSession e block log in
  (exists mid,
     snd out = snd ran ++ mid ++ [close]
     /\ ~ In close mid /\ ~ In SessionLocal mid
     /\ (In commit mid <-> exists a, fst ran = Ok a)
     /\ (In rollback mid <->
         (exists x, fst ran = Raise x) \/ (exists x, on_commit e = Raise x)))
  /\ (forall a,
        fst out = Ok a <->
        fst ran = Ok a /\ on_commit e = Ok tt /\ on_close e = Ok tt)
  /\ (forall x,
        fst ran = Raise x -> on_rollback e = Ok tt -> on_close e = Ok tt ->
        fst out = Raise x).
Proof.
  intros ran out. subst ran out.
  unfold DatabaseSession, try_finally, try_except, bind, call, ret, raise.
  destruct (block (log ++ [SessionLocal])) as [[a|x] log0];
    destruct e as [[[]|xc] [[]|xr] [[]|xz]];
    cbn [fst snd on_commit on_rollback on_close];
    (split;
     [ first
         [ exists [commit]; rewrite <- ?app_assoc; split; [reflexivity|]
         | exists [commit; rollback]; rewrite <- ?app_assoc;
           split; [reflexivity|]
         | exists [rollback]; rewrite <- ?app_assoc; split; [reflexivity|] ];
       repeat split;
       first
         [ solve [intros [H|[H|[]]]; discriminate H]
         | solve [intros [H|[]]; discriminate H]
         | solve [intros [[? H]|[? H]]; discriminate H]
         | solve [intros [? H]; discriminate H]
         | solve [intros _; cbn; auto]
         | solve [intros _; eauto]
         | solve [intros _; left; eauto]
         | solve [intros _; right; eauto] ]
     | split;
       [ intros b; split;
         [ intros H; first [discriminate H | injection H as <-; now repeat split]
         | intros (H1 & H2 & H3);
           first [discriminate H1 | discriminate H2 | discriminate H3
                 | congruence] ]
       | intros y H1 H2 H3;
         first [discriminate H1 | discriminate H2 | discriminate H3
               | congruence] ] ]).
Qed.

(** X22: [get_db] opens one session, lets the route run, and closes the
    session exactly once after it, on a normal return as on an
    exception; it neither commits nor rolls back by itself, and the
    outcome of the route is its own as long as the close succeeds. *)
Theorem get_db_closes_after_every_route
    (A : Type) (e : Engine) (route : M (list op) A) (log : list op) :
  let ran := route (log ++ [SessionLocal]) in
  let out := get_db e route log in
  snd out = snd ran ++ [close]
  /\ (on_close e = Ok tt -> fst out = fst ran)
  /\ (forall x, on_close e = Raise x -> fst out = Raise x).
Proof.
  intros ran out. subst ran out.
  unfold get_db, try_finally, bind, call.
  destruct (route (log ++ [SessionLocal])) as [r log0].
  destruct (on_close e) as [[]|x]; cbn [fst snd];
    repeat split; try discriminate; congruence.
Qed.

End SessionLifetime.

(* ------------------------------------------------------------------ *)
(** * Carriers and assistants *)
(* ------------------------------------------------------------------ *)

Section FleetRegistry.

Import fleet.

Lemma hd_error_filter_new {A} (f : A -> bool) (l : list A) (x : A) :
  (forall y, In y l -> f y = false) -> f x = true ->
  hd_error (filter f (l ++ [x])) = Some x.
Proof.
  intros Hl Hx. rewrite filter_app. cbn [filter]. rewrite Hx.
  induction l as [|y l IH]; [reflexivity|].
  cbn [filter]. rewrite (Hl y (or_introl eq_refl)).
  apply IH. intros z Hz. apply Hl. now right.
Qed.

Lemma hd_error_filter_other {A} (f : A -> bool) (l : list A) (x : A) :
  f x = false -> hd_error (filter f (l ++ [x])) = hd_error (filter f l).
Proof.
  intros Hx. rewrite filter_app. cbn [filter]. rewrite Hx.
  now rewrite app_nil_r.
Qed.

(** X23: a carrier created under a business identifier and a phone
    number that no carrier has yet is found afterwards under either of
    them; it is located in the country ["USA"] and its key is new.
    Lookups under other identifiers or numbers give what they gave
    before, and the assistants are untouched. *)
Theorem created_carrier_is_found
    (db : Fleet) (mc town st ph agent : str) :
  (forall x, In x (carriers db) -> mc_number x <> mc) ->
  (forall x, In x (carriers db) -> phone x <> ph) ->
  let carrier := fst (create_carrier db mc town st ph agent) in
  let db' := snd (create_carrier db mc town st ph agent) in
  find_carrier_by_mc_number db' mc = Some carrier
  /\ find_carrier_by_phone db' ph = Some carrier
  /\ country carrier = lit "USA"
  /\ ~ In (carrier_id carrier) (map carrier_id (carriers db))
  /\ (forall mc', mc' <> mc ->
        find_carrier_by_mc_number db' mc' = find_carrier_by_mc_number db mc')
  /\ (forall ph', ph' <> ph ->
        find_carrier_by_phone db' ph' = find_carrier_by_phone db ph')
  /\ assistants db' = assistants db.
Proof.
  intros Hmc Hph carrier db'. subst carrier db'.
  unfold create_carrier, find_carrier_by_mc_number, find_carrier_by_phone.
  cbn [fst snd carriers assistants country carrier_id].
  repeat split.
  - apply hd_error_filter_new.
    + intros y Hy. apply str_eqb_neq. now apply Hmc.
    + apply str_eqb_refl.
  - apply hd_error_filter_new.
    + intros y Hy. apply str_eqb_neq. now apply Hph.
    + apply str_eqb_refl.
  - intros Hin. apply in_map_iff in Hin. destruct Hin as (y & E & Hy).
    assert (Hle : Forall (fun k => k <= list_max (map carrier_id (carriers db)))
                    (map carrier_id (carriers db))) by now apply list_max_le.
    rewrite Forall_forall in Hle.
    specialize (Hle (carrier_id y) (in_map carrier_id _ y Hy)).
    unfold crud.next_id in E. lia.
  - intros mc' Hne. apply hd_error_filter_other. cbn [mc_number].
    apply str_eqb_neq. congruence.
  - intros ph' Hne. apply hd_error_filter_other. cbn [phone].
    apply str_eqb_neq. congruence.
Qed.

(** X24: an assistant created for a carrier that has none yet is the
    one found for that carrier afterwards, with the number and region
    it was given; the assistants found for other carriers, and the
    carriers themselves, are as before. *)
Theorem created_assistant_is_found
    (db : Fleet) (number reg : str) (cid : nat) :
  (forall a, In a (assistants db) -> assistant_carrier_id a <> Some cid) ->
  let assistant := fst (create_assistant db number reg cid) in
  let db' := snd (create_assistant db number reg cid) in
  find_assistant_by_carrier db' cid = Some assistant
  /\ twilio_number assistant = number
  /\ region assistant = Some reg
  /\ (forall k, k <> cid ->
        find_assistant_by_carrier db' k = find_assistant_by_carrier db k)
  /\ carriers db' = carriers db.
Proof.
  intros Hnone assistant db'. subst assistant db'.
  unfold create_assistant, find_assistant_by_carrier.
  cbn [fst snd carriers assistants twilio_number region].
  repeat split.
  - apply hd_error_filter_new.
    + intros a Ha. specialize (Hnone a Ha).
      destruct (assistant_carrier_id a) as [k|]; [|reflexivity].
      apply Nat.eqb_neq. congruence.
    + cbn [assistant_carrier_id]. apply Nat.eqb_refl.
  - intros k Hne. apply hd_error_filter_other. cbn [assistant_carrier_id].
    apply Nat.eqb_neq. congruence.
Qed.

End FleetRegistry.

(* ------------------------------------------------------------------ *)
(** * Stripping and splitting *)
(* ------------------------------------------------------------------ *)

Section Stripping.

Import PyStr.

Lemma lstrip_length s : length (lstrip s) <= length s.
Proof.
  induction s as [|x s IH]; cbn [lstrip]; [lia|].
  destruct (isspace x); cbn [length]; lia.
Qed.

(** A string that [lstrip] leaves alone is empty or starts with a
    character that is not white space. *)
Lemma lstrip_fixed_head x s : lstrip (x :: s) = x :: s -> isspace x = false.
Proof.
  cbn [lstrip]. destruct (isspace x); [|reflexivity].
  intros H. pose proof (lstrip_length s) as Hl. rewrite H in Hl.
  cbn [length] in Hl. lia.
Qed.

Lemma lstrip_head_fixed x s : isspace x = false -> lstrip (x :: s) = x :: s.
Proof. intros H. cbn [lstrip]. now rewrite H. Qed.

Lemma lstrip_idem s : lstrip (lstrip s) = lstrip s.
Proof.
  induction s as [|x s IH]; [reflexivity|].
  cbn [lstrip]. destruct (isspace x) eqn:E; [assumption|].
  now apply lstrip_head_fixed.
Qed.

Lemma lstrip_app_fixed s t :
  s <> [] -> lstrip s = s -> lstrip (s ++ t) = s ++ t.
Proof.
  destruct s as [|x s]; [contradiction|]. intros _ H.
  apply lstrip_fixed_head in H. cbn [app]. now apply lstrip_head_fixed.
Qed.

Lemma lstrip_snoc x l : isspace x = false -> lstrip (l ++ [x]) = lstrip l ++ [x].
Proof.
  intros H. induction l as [|y l IH]; cbn [app lstrip].
  - now rewrite H.
  - destruct (isspace y); [assumption | reflexivity].
Qed.

Lemma rstrip_length s : length (rstrip s) <= length s.
Proof.
  unfold rstrip. rewrite length_rev.
  pose proof (lstrip_length (rev s)) as H. now rewrite length_rev in H.
Qed.

Lemma rstrip_idem s : rstrip (rstrip s) = rstrip s.
Proof. unfold rstrip. now rewrite rev_involutive, lstrip_idem. Qed.

(** Stripping the right end of a string does not expose white space at
    its left end. *)
Lemma lstrip_rstrip_fixed s : lstrip s = s -> lstrip (rstrip s) = rstrip s.
Proof.
  destruct s as [|x s]; [reflexivity|]. intros H.
  apply lstrip_fixed_head in H. unfold rstrip. cbn [rev].
  rewrite (@lstrip_snoc x (rev s) H), rev_app_distr. cbn [rev app].
  now apply lstrip_head_fixed.
Qed.

Lemma strip_idem s : strip (strip s) = strip s.
Proof.
  unfold strip.
  rewrite (@lstrip_rstrip_fixed (lstrip s) (lstrip_idem s)). apply rstrip_idem.
Qed.

Lemma same_length_suffix {A} (pre s : list A) :
  length (pre ++ s) <= length s -> pre = [].
Proof.
  rewrite length_app. destruct pre; [reflexivity | cbn [length]; lia].
Qed.

Lemma lstrip_suffix s : exists pre, s = pre ++ lstrip s.
Proof.
  induction s as [|x s [pre IH]]; [now exists []|].
  cbn [lstrip]. destruct (isspace x).
  - exists (x :: pre). cbn [app]. now rewrite <- IH.
  - now exists [].
Qed.

(** A string that [strip] leaves alone is left alone by both halves. *)
Lemma strip_fixed_parts s : strip s = s -> lstrip s = s /\ rstrip s = s.
Proof.
  unfold strip. intros H.
  assert (Hl : lstrip s = s).
  { destruct (lstrip_suffix s) as [pre E].
    assert (Hp : pre = []).
    { apply (@same_length_suffix _ pre (lstrip s)). rewrite <- E.
      rewrite <- H at 1. apply rstrip_length. }
    subst pre. now symmetry. }
  split; [assumption|]. now rewrite Hl in H.
Qed.

Lemma rstrip_snoc_space s x : isspace x = true -> rstrip (s ++ [x]) = rstrip s.
Proof.
  intros H. unfold rstrip. rewrite rev_app_distr. cbn [rev app lstrip].
  now rewrite H.
Qed.

Lemma strip_padded_right (s : str) x :
  isspace x = true -> strip s = s -> strip (s ++ [x]) = s.
Proof.
  intros Hx Hs. destruct (@strip_fixed_parts s Hs) as [Hl Hr].
  unfold strip. destruct s as [|y s].
  - cbn [app lstrip]. now rewrite Hx.
  - rewrite (@lstrip_app_fixed (y :: s) [x]) by (assumption || discriminate).
    now rewrite rstrip_snoc_space.
Qed.

Lemma strip_padded_left (s : str) x :
  isspace x = true -> strip (x :: s) = strip s.
Proof. intros Hx. unfold strip. cbn [lstrip]. now rewrite Hx. Qed.

(** The pieces of a split: one more than the separators. *)
Lemma split_from_length sep s : forall cur,
  length (split_from sep cur s)
  = S (length (filter (fun x => char_eqb x sep) s)).
Proof.
  induction s as [|x s IH]; intros cur; [reflexivity|].
  cbn [split_from filter].
  destruct (char_eqb x sep); cbn [length]; now rewrite IH.
Qed.

Lemma split_from_no_sep sep s : forall cur,
  (forall x, In x s -> char_eqb x sep = false) ->
  split_from sep cur s = [rev cur ++ s].
Proof.
  induction s as [|x s IH]; intros cur H.
  - cbn [split_from]. now rewrite app_nil_r.
  - cbn [split_from]. rewrite (H x (or_introl eq_refl)).
    rewrite IH by (intros; apply H; now right).
    cbn [rev]. now rewrite <- app_assoc.
Qed.

Lemma split_from_first sep a b : forall cur,
  (forall x, In x a -> char_eqb x sep = false) ->
  split_from sep cur (a ++ sep :: b) = (rev cur ++ a) :: split_from sep [] b.
Proof.
  induction a as [|x a IH]; intros cur H.
  - cbn [app split_from]. unfold char_eqb. rewrite N.eqb_refl.
    now rewrite app_nil_r.
  - cbn [app split_from]. rewrite (H x (or_introl eq_refl)).
    rewrite IH by (intros; apply H; now right).
    cbn [rev]. now rewrite <- app_assoc.
Qed.

End Stripping.

(* ------------------------------------------------------------------ *)
(** * Extraction of name and email *)
(* ------------------------------------------------------------------ *)

Section Extraction.

Import PyStr info_extraction.

(** X25: a text that is empty or holds only white space gives
    [(None, None)] at once: nothing is sent to the model. *)
Theorem blank_text_is_not_sent
    (env : Environment) (text : str) (sent : list str) :
  strip text = [] ->
  extract_name_and_email_from_text env text sent = (Ok (None, None), sent).
Proof.
  intros H. unfold extract_name_and_email_from_text. rewrite H.
  cbn [truthy negb]. now rewrite orb_true_r.
Qed.

(** X26: the extraction never raises and sends at most one message to
    the model, the prompt built from the text; when the model call
    fails, the result is [(None, None)]. *)
Theorem extraction_never_raises
    (env : Environment) (text : str) (sent : list str) :
  exists r sent',
    extract_name_and_email_from_text env text sent = (Ok r, sent')
    /\ (sent' = sent \/ sent' = sent ++ [prompt_of text])
    /\ (forall x,
          chat_completion env SYSTEM_MESSAGE (prompt_of text) = Raise x ->
          r = (None, None)).
Proof.
  unfold extract_name_and_email_from_text.
  destruct (negb (truthy text) || negb (truthy (strip text))).
  - eexists _, _. split; [reflexivity|]. split; [now left | reflexivity].
  - unfold try_except, bind, ask, ret.
    destruct (chat_completion env SYSTEM_MESSAGE (prompt_of text))
      as [content|e];
      eexists _, _; (split; [reflexivity|]); (split; [now right|]).
    + discriminate.
    + reflexivity.
Qed.

Lemma contains_In c (s : str) : contains c s = true -> In c s.
Proof.
  unfold contains. intros H. apply existsb_exists in H.
  destruct H as (x & Hx & E). apply N.eqb_eq in E. now subst.
Qed.

Lemma parse_answer_clean env result_text :
  (forall n, fst (parse_answer env result_text) = Some n ->
     strip n = n /\ lower env n <> lit "none")
  /\ (forall m, snd (parse_answer env result_text) = Some m ->
        strip m = m /\ lower env m <> lit "none"
        /\ In 64%N m /\ In 46%N m).
Proof.
  unfold parse_answer.
  destruct (split 124%N result_text) as [|p0 [|p1 [|p2 ps]]];
    cbn [fst snd]; try (split; discriminate).
  split.
  - destruct (split_once (lit "Name:") p0) as [|b [|after [|x xs]]];
      try discriminate.
    destruct (str_eqb (lower env (strip after)) (lit "none")) eqn:E;
      cbn [negb]; [discriminate|].
    intros n H. injection H as <-.
    split; [apply strip_idem | now apply str_eqb_neq].
  - destruct (split_once (lit "Email:") p1) as [|b [|after [|x xs]]];
      try discriminate.
    destruct (str_eqb (lower env (strip after)) (lit "none")) eqn:E;
      cbn [negb]; [discriminate|].
    destruct (contains 64%N (strip after)) eqn:Ea; cbn [andb];
      [|discriminate].
    destruct (contains 46%N (strip after)) eqn:Ed; [|discriminate].
    intros m H. injection H as <-.
    repeat split;
      [apply strip_idem | now apply str_eqb_neq
      | now apply contains_In | now apply contains_In].
Qed.

(** X27: whatever the model answers, a name that the extraction
    returns has no white space around it and is not the word [none] in
    any casing; an email that it returns moreover contains [@] and
    [.]. *)
Theorem extracted_values_are_clean
    (env : Environment) (text : str) (sent : list str) :
  exists name mail sent',
    extract_name_and_email_from_text env text sent = (Ok (name, mail), sent')
    /\ (forall n, name = Some n ->
          strip n = n /\ lower env n <> lit "none")
    /\ (forall m, mail = Some m ->
          strip m = m /\ lower env m <> lit "none"
          /\ In 64%N m /\ In 46%N m).
Proof.
  unfold extract_name_and_email_from_text.
  destruct (negb (truthy text) || negb (truthy (strip text))).
  - exists None, None, sent. split; [reflexivity|]. split; discriminate.
  - unfold try_except, bind, ask, ret.
    destruct (chat_completion env SYSTEM_MESSAGE (prompt_of text))
      as [content|e].
    + destruct (parse_answer_clean env (strip content)) as [Hn Hm].
      destruct (parse_answer env (strip content)) as [name mail].
      exists name, mail, (sent ++ [prompt_of text]).
      split; [reflexivity|]. now split.
    + exists None, None, (sent ++ [prompt_of text]).
      split; [reflexivity|]. split; discriminate.
Qed.

Lemma strip_nonblank_truthy (text : str) :
  strip text <> [] ->
  negb (truthy text) || negb (truthy (strip text)) = false.
Proof.
  intros H. destruct text as [|x text]; [now contradiction H|].
  apply truthy_nonempty in H. now rewrite H.
Qed.

(** X28: an answer of the model that, once stripped, does not hold
    exactly one [|] gives [(None, None)], whatever else it holds. *)
Theorem answer_without_single_bar_gives_nothing
    (env : Environment) (text content : str) (sent : list str) :
  strip text <> [] ->
  chat_completion env SYSTEM_MESSAGE (prompt_of text) = Ok content ->
  length (filter (fun x => char_eqb x 124%N) (strip content)) <> 1 ->
  extract_name_and_email_from_text env text sent
  = (Ok (None, None), sent ++ [prompt_of text]).
Proof.
  intros Ht Hc Hbars. unfold extract_name_and_email_from_text.
  rewrite (@strip_nonblank_truthy text Ht).
  unfold try_except, bind, ask, ret. rewrite Hc.
  unfold parse_answer.
  pose proof (split_from_length 124%N (strip content) []) as Hl.
  fold (split 124%N (strip content)) in Hl.
  destruct (split 124%N (strip content)) as [|p0 [|p1 [|p2 ps]]];
    try reflexivity.
  cbn [length] in Hl. exfalso. apply Hbars. lia.
Qed.

Lemma rstrip_app_fixed (pre m : str) :
  m <> [] -> rstrip m = m -> rstrip (pre ++ m) = pre ++ m.
Proof.
  intros Hne Hm. unfold rstrip in *. rewrite rev_app_distr.
  assert (Hrev : lstrip (rev m) = rev m).
  { rewrite <- Hm at 2. now rewrite rev_involutive. }
  rewrite lstrip_app_fixed; [|intros E; apply Hne|assumption].
  - now rewrite rev_app_distr, !rev_involutive.
  - apply (f_equal (@rev _)) in E. now rewrite rev_involutive in E.
Qed.

Lemma no_bar_app (a b : str) :
  (forall x, In x a -> char_eqb x 124%N = false) ->
  (forall x, In x b -> char_eqb x 124%N = false) ->
  forall x, In x (a ++ b) -> char_eqb x 124%N = false.
Proof.
  intros Ha Hb x Hx. apply in_app_or in Hx. destruct Hx; auto.
Qed.

Lemma no_bar_lit_name : forall x, In x (lit "Name: ") -> char_eqb x 124%N = false.
Proof. intros x H. cbn in H. intuition (subst; reflexivity). Qed.

Lemma no_bar_lit_email :
  forall x, In x (lit " Email: ") -> char_eqb x 124%N = false.
Proof. intros x H. cbn in H. intuition (subst; reflexivity). Qed.

Lemma no_bar_space : forall x, In x (lit " ") -> char_eqb x 124%N = false.
Proof. intros x H. cbn in H. intuition (subst; reflexivity). Qed.

(** X29: an answer in the requested format,
    [Name: <name> | Email: <email>], is read back field by field.  For
    a name and an email without [|] and without white space around
    them, the extraction returns the name unless it is the word [none]
    in some casing, and the email unless it is that word or lacks [@]
    or [.].  An empty name is returned as the empty string, not as
    [None]. *)
Theorem formatted_answer_is_read_back
    (env : Environment) (text n m : str) (sent : list str) :
  strip text <> [] ->
  chat_completion env SYSTEM_MESSAGE (prompt_of text)
  = Ok (lit "Name: " ++ n ++ lit " | Email: " ++ m) ->
  (forall x, In x n -> char_eqb x 124%N = false) ->
  (forall x, In x m -> char_eqb x 124%N = false) ->
  strip n = n -> strip m = m -> m <> [] ->
  extract_name_and_email_from_text env text sent
  = (Ok (if str_eqb (lower env n) (lit "none") then None else Some n,
         if str_eqb (lower env m) (lit "none") then None
         else if contains 64%N m && contains 46%N m then Some m else None),
     sent ++ [prompt_of text]).
Proof.
  intros Ht Hc Hn Hm Sn Sm Mne.
  unfold extract_name_and_email_from_text.
  rewrite (@strip_nonblank_truthy text Ht).
  unfold try_except, bind, ask, ret. rewrite Hc.
  set (content := lit "Name: " ++ n ++ lit " | Email: " ++ m).
  assert (Hstrip : strip content = content).
  { unfold strip.
    assert (Hl : lstrip content = content)
      by (apply (@lstrip_head_fixed 78%N); reflexivity).
    rewrite Hl. subst content.
    rewrite !app_assoc. apply rstrip_app_fixed; [assumption|].
    now destruct (@strip_fixed_parts m Sm). }
  rewrite Hstrip.
  assert (Hsplit : split 124%N content
                   = [lit "Name: " ++ n ++ lit " "; lit " Email: " ++ m]).
  { subst content. unfold split.
    change (lit "Name: " ++ n ++ lit " | Email: " ++ m)
      with (lit "Name: " ++ n ++ lit " " ++ 124%N :: lit " Email: " ++ m).
    rewrite 2 app_assoc.
    rewrite split_from_first.
    - rewrite split_from_no_sep.
      + cbn [rev app]. now rewrite <- app_assoc.
      + apply no_bar_app; [apply no_bar_lit_email | assumption].
    - rewrite <- app_assoc.
      apply no_bar_app; [apply no_bar_lit_name|].
      apply no_bar_app; [assumption | apply no_bar_space]. }
  unfold parse_answer. rewrite Hsplit.
  assert (Hname : split_once (lit "Name:") (lit "Name: " ++ n ++ lit " ")
                  = [[]; 32%N :: n ++ [32%N]]) by reflexivity.
  assert (Hmail : split_once (lit "Email:") (lit " Email: " ++ m)
                  = [lit " "; 32%N :: m]) by reflexivity.
  rewrite Hname, Hmail.
  assert (Sn' : strip (32%N :: n ++ [32%N]) = n).
  { rewrite strip_padded_left by reflexivity.
    now apply strip_padded_right. }
  assert (Sm' : strip (32%N :: m) = m).
  { now rewrite strip_padded_left by reflexivity. }
  rewrite Sn', Sm'.
  destruct (str_eqb (lower env n) (lit "none")),
           (str_eqb (lower env m) (lit "none")); cbn [negb];
    try reflexivity;
    destruct (contains 64%N m && contains 46%N m); reflexivity.
Qed.

End Extraction.

(* ------------------------------------------------------------------ *)
(** * Further runs on the sample data *)
(* ------------------------------------------------------------------ *)

Section ServiceRuns.

Import prompts crud telephony.


Lemma known_has_keys :
  primary_key sample.known /\ store.unique_phones sample.known.
Proof.
  split; repeat constructor; cbn; intuition discriminate.
Defined.

(** The two known callers stay distinct when a third one rings. *)
Lemma uniqueness_run :
  primary_key sample.known /\ store.unique_phones sample.known
  /\ primary_key
       (snd (get_or_create_personal_info sample.known sample.NEW_PHONE
               (Some sample.SID)))
  /\ store.unique_phones
       (snd (get_or_create_personal_info sample.known sample.NEW_PHONE
               (Some sample.SID))).
Proof.
  destruct known_has_keys as [Hk Hp].
  split; [exact Hk|]. split; [exact Hp|].
  exact (proj1 (@identity_writes_keep_uniqueness sample.known Hk Hp)
           sample.NEW_PHONE (Some sample.SID)).
Defined.


(** Bob's name is stored after a call and returned at the next one. *)
Lemma backfill_run :
  query_first sample.known sample.OTHER_PHONE = Some sample.bob
  /\ fst (get_or_create_personal_info
            (snd (update_personal_info sample.known sample.OTHER_PHONE
                    (Some (lit "Bob Stone")) None))
            sample.OTHER_PHONE (Some sample.SID))
     = Some (lit "Bob Stone").
Proof.
  assert (H : query_first sample.known sample.OTHER_PHONE = Some sample.bob)
    by reflexivity.
  split; [exact H|].
  exact (@backfilled_name_is_returned sample.known sample.OTHER_PHONE
           (Some (lit "Bob Stone")) None (Some sample.SID) sample.bob H).
Defined.

(** The first inbound call of the scenario, through the general
    statement. *)
Lemma inbound_run :
  form (sample.request_of sample.inbound) = Ok sample.inbound
  /\ phonenumbers_parse sample.working sample.PHONE
     = Some sample_services.parsed_phone
  /\ twilio_service.base_host sample.working = Ok (lit "localhost:5050")
  /\ snd (handle_incoming sample.working (sample.request_of sample.inbound)
            sample.empty_db)
     = snd (crud.get_or_create_personal_info sample.empty_db sample.PHONE
              (Some sample.SID)).
Proof.
  assert (H1 : form (sample.request_of sample.inbound) = Ok sample.inbound)
    by reflexivity.
  assert (H2 : phonenumbers_parse sample.working sample.PHONE
               = Some sample_services.parsed_phone) by reflexivity.
  assert (H3 : twilio_service.base_host sample.working
               = Ok (lit "localhost:5050")) by reflexivity.
  split; [exact H1|]. split; [exact H2|]. split; [exact H3|].
  rewrite (@inbound_call_greets_and_connects
             sample.working (sample.request_of sample.inbound) sample.inbound
             sample.empty_db sample.SID sample.PHONE (lit "localhost:5050")
             sample_services.parsed_phone
             H1 eq_refl ltac:(vm_compute; discriminate)
             eq_refl ltac:(vm_compute; discriminate)
             H2 eq_refl ltac:(vm_compute; discriminate)
             eq_refl (fun _ => eq_refl) H3).
  reflexivity.
Defined.

(** The same call when the speech synthesis is down. *)
Lemma greeting_failure_run :
  form (sample.request_of sample.inbound) = Ok sample.inbound
  /\ unknown_caller sample.empty_db sample.PHONE
  /\ handle_incoming sample_services.mute
       (sample.request_of sample.inbound) sample.empty_db
     = (Ok (xml_response INTERNAL_ERROR),
        snd (crud.get_or_create_personal_info sample.empty_db sample.PHONE
               (Some sample.SID))).
Proof.
  assert (H1 : form (sample.request_of sample.inbound) = Ok sample.inbound)
    by reflexivity.
  assert (H2 : unknown_caller sample.empty_db sample.PHONE)
    by (intros r []).
  split; [exact H1|]. split; [exact H2|].
  exact (proj1 (@greeting_failure_keeps_identity_record
                  sample_services.mute (sample.request_of sample.inbound)
                  sample.inbound sample.empty_db sample.SID sample.PHONE
                  sample_services.parsed_phone (OtherException "APIError"%string)
                  H1 eq_refl ltac:(vm_compute; discriminate)
                  eq_refl ltac:(vm_compute; discriminate)
                  eq_refl eq_refl ltac:(vm_compute; discriminate)
                  eq_refl (fun _ => eq_refl))).
Defined.

(** A connected outbound call whose [From] is the word [anonymous]. *)
Lemma withheld_caller_run :
  form (sample.request_of sample_services.withheld)
  = Ok sample_services.withheld
  /\ phonenumbers_parse sample.working (lit "anonymous") = None
  /\ handle_outgoing_handler sample.working
       (sample.request_of sample_services.withheld) sample.known
     = (Ok (xml_response HANGUP), sample.known).
Proof.
  assert (H1 : form (sample.request_of sample_services.withheld)
               = Ok sample_services.withheld) by reflexivity.
  assert (H2 : phonenumbers_parse sample.working (lit "anonymous") = None)
    by reflexivity.
  split; [exact H1|]. split; [exact H2|].
  exact (proj2 (@unparsable_caller_blocks_dialled_number
                  sample.working (sample.request_of sample_services.withheld)
                  sample_services.withheld (lit "anonymous") sample.known
                  H1 eq_refl ltac:(vm_compute; discriminate) H2)).
Defined.

(** A destination typed without its [+]. *)
Lemma malformed_destination_run :
  startswith (lit "+") (lit "15559998888") = false
  /\ snd (rest.initiate_outgoing_call sample_services.client sample.working
            (lit "15559998888") [])
     = [].
Proof.
  assert (H : startswith (lit "+") (lit "15559998888") = false)
    by reflexivity.
  split; [exact H|].
  now rewrite (@malformed_destination_places_no_call
                 sample_services.client sample.working (lit "15559998888")
                 [] H).
Defined.

(** The same destination in international format. *)
Lemma wellformed_destination_run :
  startswith (lit "+") sample.OTHER_PHONE = true
  /\ rest.initiate_outgoing_call sample_services.client sample.working
       sample.OTHER_PHONE []
     = (rest.Json (lit "success") (lit "Outgoing call initiated.")
          (lit "CA900"),
        [rest.calls_create sample.OTHER_PHONE (lit "+15105550000")
           (lit "http://localhost:5050/telephony/outgoing-call-handler")]).
Proof.
  assert (H : startswith (lit "+") sample.OTHER_PHONE = true) by reflexivity.
  split; [exact H|].
  destruct (@wellformed_destination_places_one_call
              sample_services.client sample.working sample.OTHER_PHONE [] H)
    as [Hlog Hreply].
  destruct (rest.initiate_outgoing_call sample_services.client sample.working
              sample.OTHER_PHONE []) as [reply log].
  cbn [fst snd] in Hlog, Hreply. now subst.
Defined.

(** A second carrier is registered next to the first. *)
Lemma second_carrier_run :
  (forall x, In x (carriers sample_services.one_carrier) ->
     mc_number x <> lit "MC200")
  /\ (forall x, In x (carriers sample_services.one_carrier) ->
        phone x <> lit "+15105550002")
  /\ fleet.find_carrier_by_mc_number
       (snd (fleet.create_carrier sample_services.one_carrier (lit "MC200")
               (lit "Reno") (lit "NV") (lit "+15105550002") (lit "Sam")))
       (lit "MC200")
     = Some (fst (fleet.create_carrier sample_services.one_carrier
                    (lit "MC200") (lit "Reno") (lit "NV")
                    (lit "+15105550002") (lit "Sam"))).
Proof.
  assert (H1 : forall x, In x (carriers sample_services.one_carrier) ->
                 mc_number x <> lit "MC200").
  { intros x [<-|[]]. vm_compute. discriminate. }
  assert (H2 : forall x, In x (carriers sample_services.one_carrier) ->
                 phone x <> lit "+15105550002").
  { intros x [<-|[]]. vm_compute. discriminate. }
  split; [exact H1|]. split; [exact H2|].
  exact (proj1 (@created_carrier_is_found sample_services.one_carrier
                  (lit "MC200") (lit "Reno") (lit "NV")
                  (lit "+15105550002") (lit "Sam") H1 H2)).
Defined.

(** The first carrier gets its assistant. *)
Lemma first_assistant_run :
  (forall a, In a (assistants sample_services.one_carrier) ->
     assistant_carrier_id a <> Some 1)
  /\ fleet.find_assistant_by_carrier
       (snd (fleet.create_assistant sample_services.one_carrier
               (lit "+15105550100") (lit "West") 1)) 1
     = Some (fst (fleet.create_assistant sample_services.one_carrier
                    (lit "+15105550100") (lit "West") 1)).
Proof.
  assert (H : forall a, In a (assistants sample_services.one_carrier) ->
                assistant_carrier_id a <> Some 1) by (intros a []).
  split; [exact H|].
  exact (proj1 (@created_assistant_is_found sample_services.one_carrier
                  (lit "+15105550100") (lit "West") 1 H)).
Defined.

(** A transcript of white space only. *)
Lemma blank_text_run :
  PyStr.strip (lit "   ") = []
  /\ info_extraction.extract_name_and_email_from_text
       (sample_services.answering (lit "Name: Bob | Email: bob@example.com"))
       (lit "   ") []
     = (Ok (None, None), []).
Proof.
  assert (H : PyStr.strip (lit "   ") = []) by reflexivity.
  split; [exact H|].
  exact (@blank_text_is_not_sent
           (sample_services.answering
              (lit "Name: Bob | Email: bob@example.com"))
           (lit "   ") [] H).
Defined.

(** The model answers in prose. *)
Lemma prose_answer_run :
  PyStr.strip sample_services.TRANSCRIPT <> []
  /\ fst (info_extraction.extract_name_and_email_from_text
            (sample_services.answering (lit "I found no name or email."))
            sample_services.TRANSCRIPT [])
     = Ok (None, None).
Proof.
  assert (H : PyStr.strip sample_services.TRANSCRIPT <> [])
    by (vm_compute; discriminate).
  split; [exact H|].
  now rewrite (@answer_without_single_bar_gives_nothing
                 (sample_services.answering (lit "I found no name or email."))
                 sample_services.TRANSCRIPT
                 (lit "I found no name or email.") [] H eq_refl
                 ltac:(vm_compute; discriminate)).
Defined.

(** The model answers in the requested format. *)
Lemma formatted_answer_run :
  PyStr.strip sample_services.TRANSCRIPT <> []
  /\ fst (info_extraction.extract_name_and_email_from_text
            (sample_services.answering
               (lit "Name: Bob Stone | Email: bob@example.com"))
            sample_services.TRANSCRIPT [])
     = Ok (Some (lit "Bob Stone"), Some (lit "bob@example.com")).
Proof.
  assert (H : PyStr.strip sample_services.TRANSCRIPT <> [])
    by (vm_compute; discriminate).
  split; [exact H|].
  rewrite (@formatted_answer_is_read_back
             (sample_services.answering
                (lit "Name: Bob Stone | Email: bob@example.com"))
             sample_services.TRANSCRIPT
             (lit "Bob Stone") (lit "bob@example.com") [] H eq_refl).
  - reflexivity.
  - intros x Hx. cbn in Hx. intuition (subst; reflexivity).
  - intros x Hx. cbn in Hx. intuition (subst; reflexivity).
  - reflexivity.
  - reflexivity.
  - vm_compute. discriminate.
Defined.

End ServiceRuns.
